(** * IdentityStorageManager: lookup storage for identity certificates

    A shallow embedding of [backend/src/IdentityStorageManager.ts] and of the
    two collaborators it drives: the JavaScript [RegExp] built-in, which
    [getFuzzyRegex] instantiates, and the document collection, which every
    method reads or writes.

    Strings are Rocq strings, one [ascii] per UTF-16 code unit, so the
    development covers the code units below 256. *)

From Stdlib Require Import String Ascii List Bool Arith ZArith Lia.
Import ListNotations.

Set Implicit Arguments.

(** ** Promises: a call resolves with a value or rejects with an error *)

Inductive SyntaxErrorKind :=
| NothingToRepeat
| UnterminatedGroup
| UnmatchedParenthesis
| UnterminatedCharacterClass
| RangeOutOfOrder
| BackslashAtEndOfPattern.

Inductive Error :=
| SyntaxError (k : SyntaxErrorKind)
| OutsideFragment.

Inductive Outcome (A : Type) :=
| Resolved (a : A)
| Rejected (e : Error).

Arguments Resolved {A} a.
Arguments Rejected {A} e.

(** ** The RegExp built-in

    [new RegExp(source, 'i')] and [RegExp.prototype.test], after ECMA-262
    (22.2, with the Annex B grammar that applies without the [u] flag).  The
    grammar covered is the one [getFuzzyRegex] can produce: pattern
    characters, [.], identity escapes of syntax characters, the quantifiers
    [*], [+], [?] and their lazy forms, the assertions [^] and [$], capturing
    groups, alternation and character classes with ranges.  A pattern that
    needs anything else ([\d], [(?:], [{2,3}], ...) is reported as
    [OutsideFragment]; [getFuzzyRegex_inside_fragment] shows that
    [getFuzzyRegex] never builds one. *)

Module RegExp.

Inductive ClassRange := Range (lo hi : ascii).

Inductive Quantifier := QStar | QPlus | QOpt.

Inductive Node :=
| Empty
| Char (a : ascii)
| Dot
| Class (negated : bool) (ranges : list ClassRange)
| AssertStart
| AssertEnd
| Seq (n1 n2 : Node)
| Alt (n1 n2 : Node)
| Group (n : Node)
| Repeat (q : Quantifier) (greedy : bool) (n : Node).

(** *** Parsing: one pass over the pattern text *)

Definition is_one_of (set : string) (c : ascii) : bool :=
  existsb (Ascii.eqb c) (list_ascii_of_string set).

(** SyntaxCharacter of the grammar, and the two further characters whose
    escape is an identity escape as well. *)
Definition IsSyntaxCharacter (c : ascii) : bool := is_one_of "^$\.*+?()[]{}|" c.
Definition IsIdentityEscape (c : ascii) : bool := IsSyntaxCharacter c || is_one_of "/-" c.
Definition IsDecimalDigit (c : ascii) : bool := is_one_of "0123456789" c.

Inductive ClassAtom :=
| Dash
| Lit (c : ascii).

Definition atom_char (a : ClassAtom) : ascii :=
  match a with Dash => "-"%char | Lit c => c end.

(** ClassRanges: [a-b] is a range whenever the dash stands between two
    class atoms; a dash that is first or last is a member. *)
Fixpoint ClassRanges (atoms : list ClassAtom) : option (list ClassRange) :=
  match atoms with
  | [] => Some []
  | a :: Dash :: b :: rest =>
      if nat_of_ascii (atom_char a) <=? nat_of_ascii (atom_char b)
      then option_map (cons (Range (atom_char a) (atom_char b))) (ClassRanges rest)
      else None
  | a :: rest => option_map (cons (Range (atom_char a) (atom_char a))) (ClassRanges rest)
  end.

(** What the parser has just read, which decides what a quantifier or a
    [?] may do next. *)
Inductive Last :=
| NoAtom        (* start of an alternative, an assertion, a lazy quantifier *)
| GroupOpened   (* just after an opening parenthesis *)
| Atom          (* a quantifiable atom *)
| BraceAtom     (* the atom is a literal opening brace *)
| Quantified.   (* a greedy quantifier, which [?] can still make lazy *)

Record Frame := { alternatives : list Node; terms : list Node }.

Inductive Mode :=
| InPattern
| AfterBackslash
| InClass (negated start : bool) (atoms : list ClassAtom)
| InClassAfterBackslash (negated : bool) (atoms : list ClassAtom).

Record State := {
  current : Frame;
  enclosing : list Frame;
  last : Last;
  mode : Mode
}.

Inductive Parsed (A : Type) :=
| Pattern (a : A)
| Invalid (k : SyntaxErrorKind)
| NotCovered.

Arguments Pattern {A} a.
Arguments Invalid {A} k.
Arguments NotCovered {A}.

Definition initial : State :=
  {| current := {| alternatives := []; terms := [] |};
     enclosing := []; last := NoAtom; mode := InPattern |}.

(** Alternative and Disjunction of a frame; both lists are kept most recent
    first while parsing. *)
Definition Alternative (ts : list Node) : Node := fold_right Seq Empty (rev ts).

Definition Disjunction (f : Frame) : Node :=
  fold_left (fun acc a => Alt a acc) (alternatives f) (Alternative (terms f)).

Definition push (n : Node) (l : Last) (st : State) : State :=
  {| current := {| alternatives := alternatives (current st);
                   terms := n :: terms (current st) |};
     enclosing := enclosing st; last := l; mode := InPattern |}.

Definition set_terms (ts : list Node) (l : Last) (st : State) : State :=
  {| current := {| alternatives := alternatives (current st); terms := ts |};
     enclosing := enclosing st; last := l; mode := InPattern |}.

Definition set_mode (m : Mode) (st : State) : State :=
  {| current := current st; enclosing := enclosing st; last := last st; mode := m |}.

Definition quantify (q : Quantifier) (st : State) : Parsed State :=
  match last st, terms (current st) with
  | Atom, t :: ts | BraceAtom, t :: ts => Pattern (set_terms (Repeat q true t :: ts) Quantified st)
  | _, _ => Invalid NothingToRepeat
  end.

Definition question (st : State) : Parsed State :=
  match last st, terms (current st) with
  | Quantified, Repeat q _ t :: ts => Pattern (set_terms (Repeat q false t :: ts) NoAtom st)
  | Atom, t :: ts | BraceAtom, t :: ts => Pattern (set_terms (Repeat QOpt true t :: ts) Quantified st)
  | GroupOpened, _ => NotCovered
  | _, _ => Invalid NothingToRepeat
  end.

Definition open_group (st : State) : State :=
  {| current := {| alternatives := []; terms := [] |};
     enclosing := current st :: enclosing st; last := GroupOpened; mode := InPattern |}.

Definition close_group (st : State) : Parsed State :=
  match enclosing st with
  | [] => Invalid UnmatchedParenthesis
  | f :: fs =>
      Pattern {| current := {| alternatives := alternatives f;
                               terms := Group (Disjunction (current st)) :: terms f |};
                 enclosing := fs; last := Atom; mode := InPattern |}
  end.

Definition next_alternative (st : State) : State :=
  {| current := {| alternatives := Alternative (terms (current st)) :: alternatives (current st);
                   terms := [] |};
     enclosing := enclosing st; last := NoAtom; mode := InPattern |}.

Definition step_pattern (st : State) (c : ascii) : Parsed State :=
  if Ascii.eqb c "\" then Pattern (set_mode AfterBackslash st)
  else if Ascii.eqb c "." then Pattern (push Dot Atom st)
  else if Ascii.eqb c "*" then quantify QStar st
  else if Ascii.eqb c "+" then quantify QPlus st
  else if Ascii.eqb c "?" then question st
  else if Ascii.eqb c "^" then Pattern (push AssertStart NoAtom st)
  else if Ascii.eqb c "$" then Pattern (push AssertEnd NoAtom st)
  else if Ascii.eqb c "(" then Pattern (open_group st)
  else if Ascii.eqb c ")" then close_group st
  else if Ascii.eqb c "|" then Pattern (next_alternative st)
  else if Ascii.eqb c "[" then Pattern (set_mode (InClass false true []) st)
  else if Ascii.eqb c "{" then Pattern (push (Char c) BraceAtom st)
  else match last st with
       | BraceAtom => if IsDecimalDigit c then NotCovered else Pattern (push (Char c) Atom st)
       | _ => Pattern (push (Char c) Atom st)
       end.

Definition step_class (negated start : bool) (atoms : list ClassAtom)
    (st : State) (c : ascii) : Parsed State :=
  if Ascii.eqb c "]" then
    match ClassRanges (rev atoms) with
    | Some rs => Pattern (push (Class negated rs) Atom st)
    | None => Invalid RangeOutOfOrder
    end
  else if Ascii.eqb c "\" then Pattern (set_mode (InClassAfterBackslash negated atoms) st)
  else if Ascii.eqb c "^" && start then Pattern (set_mode (InClass true false atoms) st)
  else if Ascii.eqb c "-" then Pattern (set_mode (InClass negated false (Dash :: atoms)) st)
  else Pattern (set_mode (InClass negated false (Lit c :: atoms)) st).

Definition step (st : State) (c : ascii) : Parsed State :=
  match mode st with
  | InPattern => step_pattern st c
  | AfterBackslash =>
      if IsIdentityEscape c then Pattern (push (Char c) Atom st) else NotCovered
  | InClass negated start atoms => step_class negated start atoms st c
  | InClassAfterBackslash negated atoms =>
      if IsIdentityEscape c
      then Pattern (set_mode (InClass negated false (Lit c :: atoms)) st)
      else NotCovered
  end.

Fixpoint steps (st : State) (p : list ascii) : Parsed State :=
  match p with
  | [] => Pattern st
  | c :: p' =>
      match step st c with
      | Pattern st' => steps st' p'
      | failure => failure
      end
  end.

Definition finish (st : State) : Parsed Node :=
  match mode st with
  | AfterBackslash => Invalid BackslashAtEndOfPattern
  | InClass _ _ _ | InClassAfterBackslash _ _ => Invalid UnterminatedCharacterClass
  | InPattern =>
      match enclosing st with
      | [] => Pattern (Disjunction (current st))
      | _ :: _ => Invalid UnterminatedGroup
      end
  end.

Definition ParsePattern (source : string) : Parsed Node :=
  match steps initial (list_ascii_of_string source) with
  | Pattern st => finish st
  | Invalid k => Invalid k
  | NotCovered => NotCovered
  end.

(** *** Matching: the continuation-passing matchers of 22.2.2 *)

Record MatchState := { endIndex : nat; remaining : list ascii }.

Definition MatcherContinuation := MatchState -> bool.
Definition Matcher := MatchState -> MatcherContinuation -> bool.

(** Canonicalize with the [i] flag and without [u]: the upper-case mapping,
    here on the Basic Latin and Latin-1 letters. *)
Definition Canonicalize (ch : ascii) : ascii :=
  let n := nat_of_ascii ch in
  if ((97 <=? n) && (n <=? 122)) || ((224 <=? n) && (n <=? 254) && negb (n =? 247))
  then ascii_of_nat (n - 32)
  else ch.

Definition same_letter (a ch : ascii) : bool :=
  Ascii.eqb (Canonicalize a) (Canonicalize ch).

(** LineTerminator: line feed and carriage return (the other two, U+2028
    and U+2029, are above the code units modelled). *)
Definition IsLineTerminator (ch : ascii) : bool :=
  Ascii.eqb ch "010" || Ascii.eqb ch "013".

Definition in_range (r : ClassRange) (ch : ascii) : bool :=
  let 'Range lo hi := r in
  existsb (fun n => same_letter (ascii_of_nat n) ch)
          (seq (nat_of_ascii lo) (S (nat_of_ascii hi) - nat_of_ascii lo)).

Definition CharacterSetMatcher (member : ascii -> bool) : Matcher :=
  fun x c =>
    match remaining x with
    | [] => false
    | ch :: rest => member ch && c {| endIndex := S (endIndex x); remaining := rest |}
    end.

(** RepeatMatcher with min = 0 and no upper bound.  An iteration that
    consumes nothing fails, so every iteration shortens the remaining input
    and [fuel] above its length is never used up ([RepeatMatcher_fuel]). *)
Fixpoint RepeatMatcher (m : Matcher) (greedy : bool) (fuel : nat) : Matcher :=
  fun x c =>
    match fuel with
    | 0 => false
    | S fuel' =>
        let d := fun y =>
          if endIndex y =? endIndex x then false
          else RepeatMatcher m greedy fuel' y c in
        if greedy then m x d || c x else c x || m x d
    end.

Fixpoint CompileNode (n : Node) : Matcher :=
  match n with
  | Empty => fun x c => c x
  | Char a => CharacterSetMatcher (same_letter a)
  | Dot => CharacterSetMatcher (fun ch => negb (IsLineTerminator ch))
  | Class negated ranges =>
      CharacterSetMatcher (fun ch => xorb negated (existsb (fun r => in_range r ch) ranges))
  | AssertStart => fun x c => (endIndex x =? 0) && c x
  | AssertEnd => fun x c => match remaining x with [] => c x | _ :: _ => false end
  | Seq n1 n2 => fun x c => CompileNode n1 x (fun y => CompileNode n2 y c)
  | Alt n1 n2 => fun x c => CompileNode n1 x c || CompileNode n2 x c
  | Group n' => CompileNode n'
  | Repeat QStar greedy n' =>
      fun x c => RepeatMatcher (CompileNode n') greedy (S (length (remaining x))) x c
  | Repeat QPlus greedy n' =>
      fun x c =>
        CompileNode n' x
          (fun y => RepeatMatcher (CompileNode n') greedy (S (length (remaining y))) y c)
  | Repeat QOpt greedy n' =>
      fun x c =>
        let d := fun y => if endIndex y =? endIndex x then false else c y in
        if greedy then CompileNode n' x d || c x else c x || CompileNode n' x d
  end.

(** RegExpBuiltinExec without the [g] and [y] flags: the first start index,
    from 0 on, at which the pattern matches. *)
Fixpoint search (m : Matcher) (index : nat) (input : list ascii) : bool :=
  m {| endIndex := index; remaining := input |} (fun _ => true)
  || match input with
     | [] => false
     | _ :: rest => search m (S index) rest
     end.

End RegExp.

(** A RegExp object built with the [i] flag. *)
Record RegExp := { source : string; pattern : RegExp.Node }.

(** [new RegExp(source, 'i')]. *)
Definition RegExp_new (src : string) : Outcome RegExp :=
  match RegExp.ParsePattern src with
  | RegExp.Pattern n => Resolved {| source := src; pattern := n |}
  | RegExp.Invalid k => Rejected (SyntaxError k)
  | RegExp.NotCovered => Rejected OutsideFragment
  end.

(** [regexp.test(target)]. *)
Definition RegExp_test (r : RegExp) (target : string) : bool :=
  RegExp.search (RegExp.CompileNode (pattern r)) 0 (list_ascii_of_string target).

(** ** getFuzzyRegex *)

(** The class of [/[.*+?^${}()|[\]\\]/g]. *)
Definition regexSpecial (c : ascii) : bool := RegExp.is_one_of ".*+?^${}()|[]\" c.

(** [input.replace(/[.*+?^${}()|[\]\\]/g, '\\$&')] *)
Fixpoint escapeInput (input : string) : string :=
  match input with
  | EmptyString => EmptyString
  | String c rest =>
      if regexSpecial c then String "\" (String c (escapeInput rest))
      else String c (escapeInput rest)
  end.

(** [s.split('')] *)
Definition split_chars (s : string) : list string :=
  map (fun c => String c EmptyString) (list_ascii_of_string s).

(** [parts.join(sep)] *)
Definition join (sep : string) (parts : list string) : string := String.concat sep parts.

Definition getFuzzyRegex (input : string) : Outcome RegExp :=
  let escapedInput := escapeInput input in
  RegExp_new (join ".*" (split_chars escapedInput)).

(** ** Data model

    An object used as a map is the list of its entries in [Object.entries]
    order. *)

(** Modelled from the spec: [Certificate] is declared in [@bsv/sdk], not in
    the repository; these are the fields section 3 names, which are the ones
    the manager reads. *)
Record Certificate := {
  type : string;
  serialNumber : string;
  subject : string;
  certifier : string;
  fields : list (string * string)
}.

(** Modelled from the spec: [IdentityRecord] is declared in [types.ts],
    which is not among the sources; the fields are those of the object that
    [storeRecord] inserts. *)
Record IdentityRecord := {
  txid : string;
  outputIndex : Z;
  certificate : Certificate;
  createdAt : Z;
  searchableAttributes : string
}.

(** Modelled from the spec: [UTXOReference] is declared in [types.ts]; it is
    the pair that [findRecordWithQuery] builds. *)
Module UTXOReference.
Record t := { txid : string; outputIndex : Z }.
End UTXOReference.

(** Modelled from the spec: [IdentityAttributes] is declared in [types.ts];
    a map from the key [any] or from field names to search strings. *)
Definition IdentityAttributes := list (string * string).

Definition Object_keys {V : Type} (o : list (string * V)) : list string := map fst o.

Fixpoint get {V : Type} (key : string) (o : list (string * V)) : option V :=
  match o with
  | [] => None
  | (k, v) :: rest => if String.eqb k key then Some v else get key rest
  end.

(** ** The record collection

    The collection [identityRecords] of the database handle, in insertion
    order, and the filter documents the manager hands to it. *)

Definition Collection := list IdentityRecord.

(** Field paths of a filter: ['certificate.subject'],
    ['certificate.certifier'], ['certificate.type'],
    ['certificate.serialNumber'], [`certificate.fields.${key}`] and
    ['searchableAttributes']. *)
Inductive Path :=
| certificate_subject
| certificate_certifier
| certificate_type
| certificate_serialNumber
| certificate_fields (key : string)
| searchable_attributes.

(** What a filter asks of one field: a value, [{ $in: values }] or a
    RegExp. *)
Inductive Condition :=
| Is (value : string)
| In_ (values : option (list string))
| Like (re : RegExp).

Definition Filter := list (Path * Condition).

Inductive Query :=
| Q_filter (f : Filter)
| Q_and (clauses : list Filter).

(** The path [`certificate.fields.${key}`] is a string that the store reads
    as a dotted path: a key with a dot in it does not name the field of that
    name but a path into the value of another field, and the values of
    [fields] are strings, which have no fields. *)
Definition dotted (key : string) : bool :=
  existsb (Ascii.eqb ".") (list_ascii_of_string key).

Definition field_at (p : Path) (r : IdentityRecord) : option string :=
  match p with
  | certificate_subject => Some (subject (certificate r))
  | certificate_certifier => Some (certifier (certificate r))
  | certificate_type => Some (type (certificate r))
  | certificate_serialNumber => Some (serialNumber (certificate r))
  | certificate_fields key =>
      if dotted key then None else get key (fields (certificate r))
  | searchable_attributes => Some (searchableAttributes r)
  end.

(** Modelled from the spec: the record store is an external collaborator
    (MongoDB), none of it is in the repository; its matching rules follow the
    collaborator contract of section 6: exact match, set membership and
    pattern match on a scalar field, a missing field matching none of them,
    and, after section 4.3, membership in an undefined set matching nothing.
    A pattern is applied the way [RegExp.prototype.test] applies it. *)
Definition holds (c : Condition) (v : option string) : bool :=
  match c, v with
  | Is value, Some x => String.eqb x value
  | In_ (Some values), Some x => existsb (String.eqb x) values
  | In_ None, _ => false
  | Like re, Some x => RegExp_test re x
  | _, None => false
  end.

Definition satisfies (f : Filter) (r : IdentityRecord) : bool :=
  forallb (fun '(p, c) => holds c (field_at p r)) f.

Definition selects (q : Query) (r : IdentityRecord) : bool :=
  match q with
  | Q_filter f => satisfies f r
  | Q_and clauses => forallb (fun f => satisfies f r) clauses
  end.

(** An asynchronous method: it runs on the collection and resolves or
    rejects. *)
Definition Async (A : Type) := Collection -> Outcome A * Collection.

Definition ret {A : Type} (a : A) : Async A := fun db => (Resolved a, db).

Definition bind {A B : Type} (m : Async A) (k : A -> Async B) : Async B :=
  fun db =>
    match m db with
    | (Resolved a, db') => k a db'
    | (Rejected e, db') => (Rejected e, db')
    end.

Definition await {A : Type} (o : Outcome A) : Async A := fun db => (o, db).

Notation "x <- m ;; k" := (bind m (fun x => k))
  (at level 61, m at next level, right associativity).

Definition insertOne (r : IdentityRecord) : Async unit :=
  fun db => (Resolved tt, db ++ [r]).

Definition find (q : Query) : Async (list IdentityRecord) :=
  fun db => (Resolved (filter (selects q) db), db).

(** [records.deleteOne({ txid, outputIndex })]: the filter of a delete names
    the two fields of the reference. *)
Definition names (tx : string) (index : Z) (r : IdentityRecord) : bool :=
  String.eqb (txid r) tx && Z.eqb (outputIndex r) index.

Fixpoint remove_first (p : IdentityRecord -> bool) (db : Collection) : Collection :=
  match db with
  | [] => []
  | r :: rest => if p r then rest else r :: remove_first p rest
  end.

(** Modelled from the spec: like the rest of the store, [deleteOne] is not
    in the repository; it deletes at most one record that the filter
    matches, and none is no error.  Which one goes when several match is the
    store's choice: the first in collection order here, and no property
    below depends on it. *)
Definition deleteOne (tx : string) (index : Z) : Async unit :=
  fun db => (Resolved tt, remove_first (names tx index) db).

(** ** IdentityStorageManager *)

Definition storeRecord (txid : string) (outputIndex : Z) (certificate : Certificate)
    (now : Z) : Async unit :=
  insertOne {|
    txid := txid;
    outputIndex := outputIndex;
    certificate := certificate;
    createdAt := now;
    searchableAttributes :=
      join " "
        (map (fun '(_, value) => value)
           (filter (fun '(key, _) => negb (String.eqb key "profilePhoto")
                                      && negb (String.eqb key "icon"))
              (fields certificate)))
  |}.

Definition deleteRecord (txid : string) (outputIndex : Z) : Async unit :=
  deleteOne txid outputIndex.

Definition findRecordWithQuery (query : Query) : Async (list UTXOReference.t) :=
  results <- find query ;;
  ret (map (fun record => {| UTXOReference.txid := txid record;
                             UTXOReference.outputIndex := outputIndex record |})
           results).

(** [Object.entries(attributes).map(([key, value]) => ...)]: the first
    pattern that fails to compile ends the call. *)
Fixpoint attributeQueries (entries : list (string * string)) : Outcome (list Filter) :=
  match entries with
  | [] => Resolved []
  | (key, value) :: rest =>
      match getFuzzyRegex value with
      | Rejected e => Rejected e
      | Resolved re =>
          match attributeQueries rest with
          | Rejected e => Rejected e
          | Resolved qs => Resolved ([(certificate_fields key, Like re)] :: qs)
          end
      end
  end.

Definition findByAttribute (attributes : option IdentityAttributes)
    (certifiers : option (list string)) : Async (list UTXOReference.t) :=
  match attributes with
  | None => ret []
  | Some attributes =>
      if length (Object_keys attributes) =? 0 then ret []
      else
        let query := [[(certificate_certifier, In_ certifiers)]] in
        match get "any" attributes with
        | Some any =>
            re <- await (getFuzzyRegex any) ;;
            let regexQuery := [(searchable_attributes, Like re)] in
            findRecordWithQuery (Q_and (query ++ [regexQuery]))
        | None =>
            queries <- await (attributeQueries attributes) ;;
            findRecordWithQuery (Q_and (query ++ queries))
        end
  end.

Definition findByIdentityKey (identityKey : option string)
    (certifiers : option (list string)) : Async (list UTXOReference.t) :=
  match identityKey with
  | None => ret []
  | Some identityKey =>
      let query := [(certificate_subject, Is identityKey)] in
      let query :=
        match certifiers with
        | Some (_ :: _) => query ++ [(certificate_certifier, In_ certifiers)]
        | _ => query
        end in
      findRecordWithQuery (Q_filter query)
  end.

Definition findByCertifier (certifiers : option (list string))
    : Async (list UTXOReference.t) :=
  match certifiers with
  | None | Some [] => ret []
  | Some (_ :: _) =>
      findRecordWithQuery (Q_filter [(certificate_certifier, In_ certifiers)])
  end.

Definition findByCertificateType (certificateTypes : option (list string))
    (identityKey : option string) (certifiers : option (list string))
    : Async (list UTXOReference.t) :=
  match certificateTypes, identityKey, certifiers with
  | Some (_ :: _), Some identityKey, Some (_ :: _) =>
      findRecordWithQuery
        (Q_filter [(certificate_subject, Is identityKey);
                   (certificate_certifier, In_ certifiers);
                   (certificate_type, In_ certificateTypes)])
  | _, _, _ => ret []
  end.

Definition findByCertificateSerialNumber (serialNumber : option string)
    : Async (list UTXOReference.t) :=
  match serialNumber with
  | None => ret []
  | Some serialNumber =>
      if String.eqb serialNumber "" then ret []
      else findRecordWithQuery (Q_filter [(certificate_serialNumber, Is serialNumber)])
  end.

(** * The vocabulary of the properties *)

(** The reference a record is stored under. *)
Definition reference_of (record : IdentityRecord) : UTXOReference.t :=
  {| UTXOReference.txid := txid record; UTXOReference.outputIndex := outputIndex record |}.

Definition UTXOReference_eq_dec (a b : UTXOReference.t) : {a = b} + {a <> b}.
Proof. decide equality; [apply Z.eq_dec | apply string_dec]. Defined.

(** The searchable text as the specification words it: the values of the
    fields, those keyed [profilePhoto] and [icon] left out, with one space
    between neighbours. *)
Fixpoint textual_values (fs : list (string * string)) : list string :=
  match fs with
  | [] => []
  | (key, value) :: rest =>
      if String.eqb key "profilePhoto" then textual_values rest
      else if String.eqb key "icon" then textual_values rest
      else value :: textual_values rest
  end.

Fixpoint space_joined (values : list string) : string :=
  match values with
  | [] => EmptyString
  | value :: rest =>
      match rest with
      | [] => value
      | _ :: _ => (value ++ " " ++ space_joined rest)%string
      end
  end.

(** A list argument that is given and not empty. *)
Definition given {A : Type} (l : option (list A)) : option (list A) :=
  match l with
  | Some (x :: xs) => Some (x :: xs)
  | _ => None
  end.

Definition member (x : string) (l : list string) : bool := existsb (String.eqb x) l.

(** The collection after one [storeRecord] of a certificate whose subject
    is the empty string. *)
Definition unnamed_subject : Certificate :=
  {| type := "typeA"; serialNumber := "sn1"; subject := ""; certifier := "cert1";
     fields := [("name", "Alice Smith")%string] |}.

Definition db_unnamed : Collection := snd (storeRecord "t1" 0 unnamed_subject 0 []).

(** Record A of the specification's scenario, and the collection after it
    is stored. *)
Definition alice : Certificate :=
  {| type := "typeA"; serialNumber := "sn1"; subject := "pub1"; certifier := "cert1";
     fields := [("name", "Alice Smith")%string] |}.

Definition db_alice : Collection := snd (storeRecord "t1" 0 alice 0 []).

Definition chars (s : string) : list ascii := list_ascii_of_string s.

(** A literal search string: none of its characters is in the class that
    [getFuzzyRegex] escapes. *)
Definition literal (s : string) : bool :=
  forallb (fun c => negb (regexSpecial c)) (chars s).

Definition single_line (gap : list ascii) : Prop :=
  Forall (fun g => RegExp.IsLineTerminator g = false) gap.

(** [follows cs t]: the characters [cs] are found in [t] in order, up to
    case, each after a gap that holds no line terminator. *)
Inductive follows : list ascii -> list ascii -> Prop :=
| follows_nil (t : list ascii) : follows [] t
| follows_cons (c : ascii) (cs gap : list ascii) (x : ascii) (t : list ascii) :
    single_line gap ->
    RegExp.same_letter c x = true ->
    follows cs t ->
    follows (c :: cs) (gap ++ x :: t).

(** [fuzzy_occurs s t]: [t] is [s] with characters inserted: any characters
    before its first and after its last character, characters other than
    line terminators between two of its characters. *)
Definition fuzzy_occurs (s t : list ascii) : Prop :=
  match s with
  | [] => True
  | c :: cs =>
      exists before x after,
        t = before ++ x :: after /\ RegExp.same_letter c x = true /\ follows cs after
  end.

(** [in_order s t]: the characters of [s] occur in [t] in the same order,
    up to case (the fuzzy subsequence match of the glossary). *)
Inductive in_order : list ascii -> list ascii -> Prop :=
| in_order_nil (t : list ascii) : in_order [] t
| in_order_take (c : ascii) (cs : list ascii) (x : ascii) (t : list ascii) :
    RegExp.same_letter c x = true -> in_order cs t -> in_order (c :: cs) (x :: t)
| in_order_skip (s : list ascii) (x : ascii) (t : list ascii) :
    in_order s t -> in_order s (x :: t).

(** Two continuations that agree on every state a matcher can reach from
    [x]: further on in the same input. *)
Definition same_from (x : RegExp.MatchState) (c1 c2 : RegExp.MatcherContinuation) : Prop :=
  forall y,
    RegExp.endIndex x <= RegExp.endIndex y ->
    RegExp.endIndex y + length (RegExp.remaining y)
    = RegExp.endIndex x + length (RegExp.remaining x) ->
    c1 y = c2 y.

(** The wildcard-and-character pairs that follow the first character. *)
Definition tail_text (cs : list ascii) : list ascii :=
  flat_map (fun c => ["."; "*"; c]%char) cs.

Definition tail_nodes (cs : list ascii) : list RegExp.Node :=
  flat_map (fun c => [RegExp.Repeat RegExp.QStar true RegExp.Dot; RegExp.Char c]) cs.

Definition fuzzy_node (cs : list ascii) : RegExp.Node :=
  match cs with
  | [] => RegExp.Empty
  | c :: rest => fold_right RegExp.Seq RegExp.Empty (RegExp.Char c :: tail_nodes rest)
  end.

(** The two characters of ["ab"] with a line feed between them. *)
Definition a_newline_b : string := String "a" (String "010" (String "b" EmptyString)).

(** The parser is waiting for the character that decides a construct: after
    a backslash, an opening parenthesis or an opening brace. *)
Definition pending (st : RegExp.State) : bool :=
  match RegExp.mode st with
  | RegExp.AfterBackslash | RegExp.InClassAfterBackslash _ _ => true
  | RegExp.InClass _ _ _ => false
  | RegExp.InPattern =>
      match RegExp.last st with
      | RegExp.GroupOpened | RegExp.BraceAtom => true
      | _ => false
      end
  end.

(** Case analysis on every test that decides the value of [H]. *)
Ltac split_cases H :=
  repeat match type of H with
         | context [if ?b then _ else _] => destruct b
         | context [match ?x with _ => _ end] => destruct x
         end.

(** ** Vocabulary of the further properties *)

(** The reference under which [storeRecord] and [deleteRecord] are called. *)
Definition reference (tx : string) (index : Z) : UTXOReference.t :=
  {| UTXOReference.txid := tx; UTXOReference.outputIndex := index |}.

(** No record of the collection is stored under the reference. *)
Definition absent (ref : UTXOReference.t) (db : Collection) : Prop :=
  forall r, In r db -> reference_of r <> ref.

(** How many times a list of references holds one. *)
Definition occurrences (ref : UTXOReference.t) (refs : list UTXOReference.t) : nat :=
  count_occ UTXOReference_eq_dec refs ref.

(** What a call resolves with, the empty list standing for a rejection. *)
Definition resolved (o : Outcome (list UTXOReference.t) * Collection)
    : list UTXOReference.t :=
  match fst o with
  | Resolved refs => refs
  | Rejected _ => []
  end.

(** The certifier is one of the given certifiers. *)
Definition accepted (certifiers : option (list string)) (c : string) : bool :=
  match certifiers with
  | Some cs => member c cs
  | None => false
  end.

(** The pattern that [getFuzzyRegex] builds from a literal search string. *)
Definition fuzzy_regexp (value : string) : RegExp :=
  {| source := join ".*" (split_chars value); pattern := fuzzy_node (chars value) |}.

(** A field that [storeRecord] puts into the searchable text. *)
Definition textual (key : string) : bool :=
  negb (String.eqb key "profilePhoto") && negb (String.eqb key "icon").

(** A find operation whose query does not depend on the collection: it
    refuses its input, hands one query to [findRecordWithQuery], or is
    rejected. *)
Definition uniform (op : Async (list UTXOReference.t)) : Prop :=
  (forall db, op db = (Resolved [], db))
  \/ (exists query, forall db, op db = findRecordWithQuery query db)
  \/ (exists e, forall db, op db = (Rejected e, db)).

(** The record that [storeRecord] inserts. *)
Definition stored (tx : string) (index : Z) (cert : Certificate) (now : Z)
    : IdentityRecord :=
  {| txid := tx; outputIndex := index; certificate := cert; createdAt := now;
     searchableAttributes :=
       join " "
         (map (fun '(_, value) => value)
            (filter (fun '(key, _) => negb (String.eqb key "profilePhoto")
                                       && negb (String.eqb key "icon"))
               (fields cert))) |}.

(** Two characters that differ in case at most. *)
Definition alike (a b : ascii) : Prop := RegExp.same_letter a b = true.

(** The three regex metacharacters that are pattern characters of their
    own when nothing escapes them: the braces and the closing bracket. *)
Definition brace_like (c : ascii) : bool := RegExp.is_one_of "{}]" c.

(** A search string whose only regex metacharacters are of that kind. *)
Definition harmless (s : string) : bool :=
  forallb (fun c => negb (regexSpecial c) || brace_like c) (chars s).

(** What [escapeInput] makes of one character, the pattern text that
    [getFuzzyRegex] makes of it, and the pattern terms that the text stands
    for. *)
Definition escaped (c : ascii) : list ascii :=
  if regexSpecial c then ["\"; c]%char else [c].

Definition token_text (c : ascii) : list ascii :=
  if regexSpecial c then ["\"; "."; "*"; c]%char else [c].

Definition token_nodes (c : ascii) : list RegExp.Node :=
  if regexSpecial c
  then [RegExp.Repeat RegExp.QStar true (RegExp.Char "."); RegExp.Char c]
  else [RegExp.Char c].

Definition harmless_tail (cs : list ascii) : list RegExp.Node :=
  flat_map (fun c => RegExp.Repeat RegExp.QStar true RegExp.Dot :: token_nodes c) cs.

Definition harmless_node (cs : list ascii) : RegExp.Node :=
  match cs with
  | [] => RegExp.Empty
  | c :: rest => fold_right RegExp.Seq RegExp.Empty (token_nodes c ++ harmless_tail rest)
  end.

(** The references of the records that a predicate selects, one for each
    record, in collection order. *)
Definition answer (selected : IdentityRecord -> bool) (db : Collection)
    : list UTXOReference.t :=
  map reference_of (filter selected db).

(** The record is stored under the reference. *)
Definition carries (ref : UTXOReference.t) (r : IdentityRecord) : bool :=
  if UTXOReference_eq_dec (reference_of r) ref then true else false.

(** The fuzzy clauses that [findByAttribute] puts after the certifier
    clause: one on the searchable text when the key [any] is there, one for
    each attribute otherwise. *)
Definition attribute_clauses (attributes : IdentityAttributes) : Outcome (list Filter) :=
  match get "any" attributes with
  | Some any =>
      match getFuzzyRegex any with
      | Resolved re => Resolved [[(searchable_attributes, Like re)]]
      | Rejected e => Rejected e
      end
  | None => attributeQueries attributes
  end.

(** A second certificate, issued to another subject by another certifier. *)
Definition bob : Certificate :=
  {| type := "typeB"; serialNumber := "sn2"; subject := "pub2"; certifier := "cert2";
     fields := [("name", "Bob Stone")%string; ("profilePhoto", "0xCAFE")%string] |}.

(** A certificate with a field whose name holds a dot. *)
Definition dotted_field : Certificate :=
  {| type := "typeA"; serialNumber := "sn4"; subject := "pub4"; certifier := "cert1";
     fields := [("a.b", "xyz")%string; ("a", "xyz")%string] |}.

(** A certificate that carries pictures only. *)
Definition pictures : Certificate :=
  {| type := "typeA"; serialNumber := "sn3"; subject := "pub3"; certifier := "cert1";
     fields := [("profilePhoto", "0xCAFE")%string; ("icon", "0xBEEF")%string] |}.

(** * Properties *)

(** ** The shared fetch-and-project step *)

Lemma findRecordWithQuery_eq (query : Query) (db : Collection) :
  findRecordWithQuery query db
  = (Resolved (map reference_of (filter (selects query) db)), db).
Proof. reflexivity. Qed.

Lemma filter_ext_eq {A : Type} (f g : A -> bool) (l : list A) :
  (forall a, f a = g a) -> filter f l = filter g l.
Proof.
  intros E. induction l as [|a l IH]; simpl; [reflexivity|].
  rewrite E, IH. reflexivity.
Qed.

(** ** storeRecord *)

Lemma textual_values_filter (fs : list (string * string)) :
  map (fun '(_, value) => value)
      (filter (fun '(key, _) => negb (String.eqb key "profilePhoto")
                                 && negb (String.eqb key "icon")) fs)
  = textual_values fs.
Proof.
  induction fs as [|[key value] fs IH]; simpl; [reflexivity|].
  destruct (String.eqb key "profilePhoto"); simpl; [exact IH|].
  destruct (String.eqb key "icon"); simpl; [exact IH|].
  rewrite IH. reflexivity.
Qed.

Lemma join_space (values : list string) : join " " values = space_joined values.
Proof.
  unfold join.
  induction values as [|v [|w rest] IH]; simpl in *; try reflexivity.
  rewrite IH. reflexivity.
Qed.

(** C8: [storeRecord] appends exactly one record to the collection; that
    record carries the given txid, output index and certificate unchanged,
    and its [searchableAttributes] is the space-joined concatenation of the
    values of [certificate.fields] without the entries keyed [profilePhoto]
    and [icon]. *)
Theorem storeRecord_stores (tx : string) (index : Z) (cert : Certificate)
    (now : Z) (db : Collection) :
  exists record,
    storeRecord tx index cert now db = (Resolved tt, db ++ [record])
    /\ txid record = tx
    /\ outputIndex record = index
    /\ certificate record = cert
    /\ searchableAttributes record = space_joined (textual_values (fields cert)).
Proof.
  eexists. split; [reflexivity|]. simpl.
  repeat split.
  rewrite textual_values_filter. apply join_space.
Qed.

(** ** findByCertificateType and findByIdentityKey *)

Lemma member_cons (x c : string) (cs : list string) :
  existsb (String.eqb x) (c :: cs) = member x (c :: cs).
Proof. reflexivity. Qed.

(** C5, as the code has it: [findByCertificateType] returns the empty list
    when the certificate types or the certifiers are undefined or empty, or
    the identity key is undefined; on every other input, the empty string as
    identity key included, it returns exactly the references of the records
    whose subject equals the identity key, whose certifier is one of the
    certifiers and whose type is one of the certificate types. *)
Theorem findByCertificateType_answers (certificateTypes : option (list string))
    (identityKey : option string) (certifiers : option (list string))
    (db : Collection) :
  findByCertificateType certificateTypes identityKey certifiers db
  = (Resolved
       match given certificateTypes, identityKey, given certifiers with
       | Some types, Some key, Some certs =>
           map reference_of
             (filter (fun r => String.eqb (subject (certificate r)) key
                               && member (certifier (certificate r)) certs
                               && member (type (certificate r)) types) db)
       | _, _, _ => []
       end, db).
Proof.
  destruct certificateTypes as [[|t ts]|]; try reflexivity;
    destruct identityKey as [key|]; try reflexivity;
    destruct certifiers as [[|c cs]|]; try reflexivity.
  unfold findByCertificateType. rewrite findRecordWithQuery_eq.
  cbn [given]. do 3 f_equal. apply filter_ext_eq. intros r.
  cbn [selects satisfies forallb holds field_at].
  rewrite !member_cons, andb_true_r, andb_assoc. reflexivity.
Qed.

(** C5 fails as stated: with the empty string as identity key the call goes
    to the store and returns the record stored under the empty subject. *)
Lemma findByCertificateType_empty_identityKey :
  fst (findByCertificateType (Some ["typeA"%string]) (Some ""%string) (Some ["cert1"%string]) db_unnamed)
  = Resolved [{| UTXOReference.txid := "t1"; UTXOReference.outputIndex := 0 |}]
  /\ fst (findByCertificateType (Some ["typeA"%string]) (Some ""%string) (Some ["cert1"%string]) db_unnamed)
     <> Resolved [].
Proof. split; [reflexivity | discriminate]. Qed.

(** C6, as the code has it: [findByIdentityKey] returns the empty list for
    an undefined identity key, whatever the certifiers and the collection;
    any other key, the empty string included, is looked up: the call returns
    the references of the records whose subject equals the key and, when
    certifiers are given and not empty, whose certifier is one of them. *)
Theorem findByIdentityKey_answers (identityKey : option string)
    (certifiers : option (list string)) (db : Collection) :
  findByIdentityKey identityKey certifiers db
  = (Resolved
       match identityKey with
       | None => []
       | Some key =>
           map reference_of
             (filter (fun r => String.eqb (subject (certificate r)) key
                               && match given certifiers with
                                  | Some certs => member (certifier (certificate r)) certs
                                  | None => true
                                  end) db)
       end, db).
Proof.
  destruct identityKey as [key|]; [|reflexivity].
  unfold findByIdentityKey. rewrite findRecordWithQuery_eq.
  do 3 f_equal. apply filter_ext_eq. intros r.
  destruct certifiers as [[|c cs]|];
    cbn [given selects satisfies forallb holds field_at app];
    rewrite ?member_cons, ?andb_true_r; reflexivity.
Qed.

(** C6 fails as stated: the empty string is looked up like any other key. *)
Lemma findByIdentityKey_empty_identityKey :
  fst (findByIdentityKey (Some ""%string) None db_unnamed)
  = Resolved [{| UTXOReference.txid := "t1"; UTXOReference.outputIndex := 0 |}]
  /\ fst (findByIdentityKey (Some ""%string) None db_unnamed) <> Resolved [].
Proof. split; [reflexivity | discriminate]. Qed.

(** ** Store, then find by identity key *)

Lemma member_In (x : string) (l : list string) : In x l -> member x l = true.
Proof.
  intros H. apply existsb_exists. exists x. split; [exact H|apply String.eqb_refl].
Qed.

Lemma count_occ_absent (ref : UTXOReference.t) (p : IdentityRecord -> bool)
    (db : Collection) :
  (forall r, In r db -> reference_of r <> ref) ->
  count_occ UTXOReference_eq_dec (map reference_of (filter p db)) ref = 0.
Proof.
  intros H. apply count_occ_not_In. intros Hin.
  apply in_map_iff in Hin. destruct Hin as [r [E Hr]].
  apply filter_In in Hr. exact (H r (proj1 Hr) E).
Qed.

(** C7: from any collection that holds no record under [(txid, outputIndex)],
    storing a certificate under that reference and then querying by the
    certificate's subject, with the certificate's certifier among the
    certifiers, resolves with a list in which the stored reference occurs
    exactly once. *)
Theorem store_then_findByIdentityKey (tx : string) (index : Z) (cert : Certificate)
    (now : Z) (certifiers : list string) (db : Collection) :
  (forall r, In r db ->
     reference_of r <> {| UTXOReference.txid := tx; UTXOReference.outputIndex := index |}) ->
  In (certifier cert) certifiers ->
  exists refs,
    fst ((_ <- storeRecord tx index cert now ;;
          findByIdentityKey (Some (subject cert)) (Some certifiers)) db)
    = Resolved refs
    /\ count_occ UTXOReference_eq_dec refs
         {| UTXOReference.txid := tx; UTXOReference.outputIndex := index |} = 1.
Proof.
  intros Hfresh Hcert.
  destruct certifiers as [|c cs]; [destruct Hcert|].
  unfold bind, storeRecord, insertOne, findByIdentityKey.
  rewrite findRecordWithQuery_eq. cbn [fst app].
  eexists. split; [reflexivity|].
  rewrite filter_app, map_app, count_occ_app.
  rewrite count_occ_absent by exact Hfresh.
  cbn [filter selects satisfies forallb holds field_at certificate subject certifier].
  rewrite String.eqb_refl, member_cons, (member_In _ _ Hcert).
  cbn [andb map reference_of txid outputIndex count_occ].
  destruct (UTXOReference_eq_dec _ _) as [_|N]; [reflexivity|].
  exfalso. apply N. reflexivity.
Qed.

Lemma store_then_findByIdentityKey_witness :
  exists refs,
    fst ((_ <- storeRecord "t2" 0 alice 0 ;;
          findByIdentityKey (Some (subject alice)) (Some ["cert1"%string])) db_unnamed)
    = Resolved refs
    /\ count_occ UTXOReference_eq_dec refs
         {| UTXOReference.txid := "t2"; UTXOReference.outputIndex := 0 |} = 1.
Proof.
  apply (@store_then_findByIdentityKey "t2" 0 alice 0 ["cert1"%string] db_unnamed).
  - intros r [<-|[]]. discriminate.
  - left. reflexivity.
Defined.

(** ** The fuel of RepeatMatcher is never used up *)

Lemma CharacterSetMatcher_ext (member : ascii -> bool) (x : RegExp.MatchState)
    (c1 c2 : RegExp.MatcherContinuation) :
  same_from x c1 c2 ->
  RegExp.CharacterSetMatcher member x c1 = RegExp.CharacterSetMatcher member x c2.
Proof.
  intros H. unfold RegExp.CharacterSetMatcher.
  destruct (RegExp.remaining x) as [|ch rest] eqn:E; [reflexivity|].
  rewrite (H {| RegExp.endIndex := S (RegExp.endIndex x); RegExp.remaining := rest |});
    [reflexivity | cbn; lia | cbn; rewrite E; cbn; lia].
Qed.

Lemma same_from_later (x y : RegExp.MatchState) (c1 c2 : RegExp.MatcherContinuation) :
  same_from x c1 c2 ->
  RegExp.endIndex x <= RegExp.endIndex y ->
  RegExp.endIndex y + length (RegExp.remaining y)
  = RegExp.endIndex x + length (RegExp.remaining x) ->
  same_from y c1 c2.
Proof. intros H Hle Htot z Hz Hzt. apply H; lia. Qed.

Lemma RepeatMatcher_ext (m : RegExp.Matcher) (greedy : bool) :
  (forall x c1 c2, same_from x c1 c2 -> m x c1 = m x c2) ->
  forall fuel x c1 c2,
    same_from x c1 c2 ->
    RegExp.RepeatMatcher m greedy fuel x c1 = RegExp.RepeatMatcher m greedy fuel x c2.
Proof.
  intros Hm. induction fuel as [|fuel IH]; intros x c1 c2 H; [reflexivity|].
  cbn [RegExp.RepeatMatcher].
  rewrite (H x) by lia.
  rewrite (Hm x _ (fun y => if RegExp.endIndex y =? RegExp.endIndex x then false
                            else RegExp.RepeatMatcher m greedy fuel y c2));
    [reflexivity|].
  intros y Hy Hyt. destruct (RegExp.endIndex y =? RegExp.endIndex x); [reflexivity|].
  apply IH. eapply same_from_later; eassumption.
Qed.

Lemma CompileNode_ext (n : RegExp.Node) :
  forall x c1 c2, same_from x c1 c2 -> RegExp.CompileNode n x c1 = RegExp.CompileNode n x c2.
Proof.
  induction n as [|a| |negated ranges| | |n1 IH1 n2 IH2|n1 IH1 n2 IH2|n IH|q greedy n IH];
    intros x c1 c2 H; cbn [RegExp.CompileNode].
  - apply H; lia.
  - apply CharacterSetMatcher_ext; exact H.
  - apply CharacterSetMatcher_ext; exact H.
  - apply CharacterSetMatcher_ext; exact H.
  - rewrite (H x) by lia. reflexivity.
  - rewrite (H x) by lia. reflexivity.
  - apply IH1. intros y Hy Hyt. apply IH2. eapply same_from_later; eassumption.
  - rewrite (IH1 x c1 c2 H), (IH2 x c1 c2 H). reflexivity.
  - apply IH; exact H.
  - destruct q.
    + apply RepeatMatcher_ext; assumption.
    + apply IH. intros y Hy Hyt. apply RepeatMatcher_ext; [exact IH|].
      eapply same_from_later; eassumption.
    + rewrite (H x) by lia.
      rewrite (IH x _ (fun y => if RegExp.endIndex y =? RegExp.endIndex x then false
                                else c2 y)); [reflexivity|].
      intros y Hy Hyt. rewrite (H y) by assumption. reflexivity.
Qed.

(** Any fuel above the length of the remaining input gives the same
    result: the exhausted case of [RepeatMatcher] is never reached. *)
Lemma RepeatMatcher_fuel (n : RegExp.Node) (greedy : bool) (bound : nat) :
  forall fuel1 fuel2 x c,
    length (RegExp.remaining x) <= bound ->
    length (RegExp.remaining x) < fuel1 ->
    length (RegExp.remaining x) < fuel2 ->
    RegExp.RepeatMatcher (RegExp.CompileNode n) greedy fuel1 x c
    = RegExp.RepeatMatcher (RegExp.CompileNode n) greedy fuel2 x c.
Proof.
  induction bound as [|bound IH]; intros fuel1 fuel2 x c Hb H1 H2;
    (destruct fuel1 as [|fuel1]; [inversion H1|]);
    (destruct fuel2 as [|fuel2]; [inversion H2|]);
    cbn [RegExp.RepeatMatcher];
    rewrite (@CompileNode_ext n x _
               (fun y => if RegExp.endIndex y =? RegExp.endIndex x then false
                         else RegExp.RepeatMatcher (RegExp.CompileNode n) greedy fuel2 y c));
    try reflexivity;
    intros y Hy Hyt;
    destruct (RegExp.endIndex y =? RegExp.endIndex x) eqn:E; try reflexivity;
    apply Nat.eqb_neq in E.
  - exfalso. lia.
  - apply IH; lia.
Qed.

(** ** getFuzzyRegex on search strings without regex metacharacters *)

Lemma escapeInput_literal (s : string) : literal s = true -> escapeInput s = s.
Proof.
  unfold literal, chars. induction s as [|c s IH]; simpl; [reflexivity|].
  intros H. apply andb_true_iff in H. destruct H as [Hc Hs].
  apply negb_true_iff in Hc. rewrite Hc, (IH Hs). reflexivity.
Qed.

Lemma chars_append (a b : string) : chars (a ++ b) = chars a ++ chars b.
Proof. unfold chars. induction a as [|c a IH]; simpl; [reflexivity|]. rewrite IH. reflexivity. Qed.

Lemma concat_more (sep x y : string) (l : list string) :
  String.concat sep (x :: y :: l) = (x ++ sep ++ String.concat sep (y :: l))%string.
Proof. reflexivity. Qed.

Lemma join_singletons (cs : list ascii) :
  chars (join ".*" (map (fun c => String c EmptyString) cs))
  = match cs with
    | [] => []
    | c :: rest => c :: tail_text rest
    end.
Proof.
  unfold join. induction cs as [|c [|c' rest] IH]; try reflexivity.
  cbn [map] in *. rewrite concat_more, !chars_append, IH. reflexivity.
Qed.

Lemma join_split_chars (s : string) :
  chars (join ".*" (split_chars s))
  = match chars s with
    | [] => []
    | c :: rest => c :: tail_text rest
    end.
Proof. apply join_singletons. Qed.

(** The fourteen characters of the escape class, one by one. *)
Lemma regexSpecial_false (c : ascii) :
  regexSpecial c = false ->
  Ascii.eqb c "\" = false /\ Ascii.eqb c "." = false /\ Ascii.eqb c "*" = false
  /\ Ascii.eqb c "+" = false /\ Ascii.eqb c "?" = false /\ Ascii.eqb c "^" = false
  /\ Ascii.eqb c "$" = false /\ Ascii.eqb c "(" = false /\ Ascii.eqb c ")" = false
  /\ Ascii.eqb c "|" = false /\ Ascii.eqb c "[" = false /\ Ascii.eqb c "{" = false.
Proof.
  unfold regexSpecial, RegExp.is_one_of. simpl. intros H.
  repeat (apply orb_false_iff in H; destruct H as [? H]).
  repeat split; assumption.
Qed.

Lemma step_literal (st : RegExp.State) (c : ascii) :
  regexSpecial c = false ->
  RegExp.mode st = RegExp.InPattern ->
  RegExp.last st <> RegExp.BraceAtom ->
  RegExp.step st c = RegExp.Pattern (RegExp.push (RegExp.Char c) RegExp.Atom st).
Proof.
  intros Hc Hm Hl. unfold RegExp.step, RegExp.step_pattern. rewrite Hm.
  destruct (regexSpecial_false c Hc)
    as (E1 & E2 & E3 & E4 & E5 & E6 & E7 & E8 & E9 & E10 & E11 & E12).
  rewrite E1, E2, E3, E4, E5, E6, E7, E8, E9, E10, E11, E12.
  destruct (RegExp.last st); try reflexivity. contradiction.
Qed.

Lemma step_dot (st : RegExp.State) :
  RegExp.mode st = RegExp.InPattern ->
  RegExp.step st "." = RegExp.Pattern (RegExp.push RegExp.Dot RegExp.Atom st).
Proof. intros Hm. unfold RegExp.step. rewrite Hm. reflexivity. Qed.

Lemma step_star_after_atom (n : RegExp.Node) (st : RegExp.State) :
  RegExp.step (RegExp.push n RegExp.Atom st) "*"
  = RegExp.Pattern
      (RegExp.set_terms
         (RegExp.Repeat RegExp.QStar true n :: RegExp.terms (RegExp.current st))
         RegExp.Quantified (RegExp.push n RegExp.Atom st)).
Proof. reflexivity. Qed.

Lemma steps_tail_text (cs : list ascii) :
  forallb (fun c => negb (regexSpecial c)) cs = true ->
  forall st,
    RegExp.mode st = RegExp.InPattern ->
    exists st',
      RegExp.steps st (tail_text cs) = RegExp.Pattern st'
      /\ RegExp.mode st' = RegExp.InPattern
      /\ RegExp.enclosing st' = RegExp.enclosing st
      /\ RegExp.alternatives (RegExp.current st') = RegExp.alternatives (RegExp.current st)
      /\ RegExp.terms (RegExp.current st')
         = rev (tail_nodes cs) ++ RegExp.terms (RegExp.current st).
Proof.
  induction cs as [|c cs IH]; intros Hcs st Hm.
  - exists st. simpl. repeat split; assumption.
  - simpl in Hcs. apply andb_true_iff in Hcs. destruct Hcs as [Hc Hcs].
    apply negb_true_iff in Hc.
    cbn [tail_text flat_map app RegExp.steps].
    rewrite (step_dot st Hm), step_star_after_atom.
    rewrite step_literal; [|exact Hc|reflexivity|discriminate].
    match goal with |- context [RegExp.steps ?s (flat_map _ cs)] =>
      destruct (IH Hcs s eq_refl) as (st' & E & M & En & Al & Te) end.
    exists st'. fold (tail_text cs). rewrite E.
    repeat split; try assumption.
    rewrite Te. cbn [tail_nodes flat_map app rev RegExp.push RegExp.set_terms
                     RegExp.current RegExp.terms].
    fold (tail_nodes cs). rewrite <- !app_assoc. reflexivity.
Qed.

Lemma getFuzzyRegex_literal_pattern (s : string) :
  literal s = true ->
  getFuzzyRegex s
  = Resolved {| source := join ".*" (split_chars s); pattern := fuzzy_node (chars s) |}.
Proof.
  intros Hs. unfold getFuzzyRegex, RegExp_new, RegExp.ParsePattern.
  rewrite (escapeInput_literal s Hs).
  fold (chars (join ".*" (split_chars s))). rewrite join_split_chars.
  unfold literal in Hs. destruct (chars s) as [|c rest]; [reflexivity|].
  simpl in Hs. apply andb_true_iff in Hs. destruct Hs as [Hc Hrest].
  apply negb_true_iff in Hc.
  cbn [RegExp.steps].
  rewrite step_literal; [|exact Hc|reflexivity|discriminate].
  destruct (steps_tail_text rest Hrest
              (RegExp.push (RegExp.Char c) RegExp.Atom RegExp.initial) eq_refl)
    as (st' & E & M & En & Al & Te).
  rewrite E. unfold RegExp.finish. rewrite M, En. cbn [RegExp.push RegExp.enclosing RegExp.initial].
  unfold RegExp.Disjunction. rewrite Al, Te.
  cbn [RegExp.push RegExp.initial RegExp.current RegExp.alternatives RegExp.terms fold_left].
  unfold RegExp.Alternative. rewrite rev_app_distr, rev_involutive. reflexivity.
Qed.

(** *** What the pattern of a literal string matches *)

Lemma single_line_forallb (gap : list ascii) :
  forallb (fun g => negb (RegExp.IsLineTerminator g)) gap = true <-> single_line gap.
Proof.
  unfold single_line. rewrite forallb_forall, Forall_forall.
  split; intros H g Hg; specialize (H g Hg).
  - apply negb_true_iff in H. exact H.
  - apply negb_true_iff. exact H.
Qed.

(** The wildcard: a greedy star over the dot runs over any gap without a
    line terminator, and over nothing else. *)
Lemma RepeatMatcher_Dot (fuel : nat) :
  forall (i : nat) (input : list ascii) (c : RegExp.MatcherContinuation),
    length input < fuel ->
    RegExp.RepeatMatcher (RegExp.CompileNode RegExp.Dot) true fuel
      {| RegExp.endIndex := i; RegExp.remaining := input |} c = true
    <-> exists gap rest,
          input = gap ++ rest /\ single_line gap
          /\ c {| RegExp.endIndex := i + length gap; RegExp.remaining := rest |} = true.
Proof.
  induction fuel as [|fuel IH]; intros i input c Hlen; [inversion Hlen|].
  cbn [RegExp.RepeatMatcher]. rewrite orb_true_iff.
  assert (Hnext : forall ch rest,
             RegExp.CompileNode RegExp.Dot
               {| RegExp.endIndex := i; RegExp.remaining := ch :: rest |}
               (fun y => if RegExp.endIndex y =? i then false
                         else RegExp.RepeatMatcher (RegExp.CompileNode RegExp.Dot)
                                true fuel y c)
             = negb (RegExp.IsLineTerminator ch)
               && RegExp.RepeatMatcher (RegExp.CompileNode RegExp.Dot) true fuel
                    {| RegExp.endIndex := S i; RegExp.remaining := rest |} c).
  { intros ch rest. cbn [RegExp.CompileNode]. unfold RegExp.CharacterSetMatcher at 1.
    cbn [RegExp.endIndex RegExp.remaining].
    replace (S i =? i) with false by (symmetry; apply Nat.eqb_neq; lia).
    reflexivity. }
  cbn [RegExp.endIndex]. split.
  - intros [H|H].
    + destruct input as [|ch rest]; [discriminate|].
      rewrite Hnext in H. apply andb_true_iff in H. destruct H as [Hch H].
      apply IH in H; [|simpl in Hlen; lia].
      destruct H as (gap & rest' & E & Hgap & Hc).
      exists (ch :: gap), rest'. subst rest. split; [reflexivity|]. split.
      * constructor; [apply negb_true_iff; exact Hch | exact Hgap].
      * cbn [length]. rewrite Nat.add_succ_r. exact Hc.
    + exists [], input. split; [reflexivity|]. split; [constructor|].
      cbn [length]. rewrite Nat.add_0_r. exact H.
  - intros (gap & rest & E & Hgap & Hc). destruct gap as [|g gap].
    + right. cbn [length app] in *. subst rest. rewrite Nat.add_0_r in Hc. exact Hc.
    + left. subst input. cbn [app]. inversion Hgap as [|? ? Hg Hgap']; subst.
      rewrite Hnext. apply andb_true_iff. split; [apply negb_true_iff; exact Hg|].
      apply IH; [cbn [app length] in Hlen; lia|].
      exists gap, rest. split; [reflexivity|]. split; [exact Hgap'|].
      cbn [length] in Hc. rewrite Nat.add_succ_r in Hc. exact Hc.
Qed.

Lemma CharacterSetMatcher_true (member : ascii -> bool) (i : nat) (input : list ascii)
    (c : RegExp.MatcherContinuation) :
  RegExp.CharacterSetMatcher member {| RegExp.endIndex := i; RegExp.remaining := input |} c = true
  <-> exists ch rest,
        input = ch :: rest /\ member ch = true
        /\ c {| RegExp.endIndex := S i; RegExp.remaining := rest |} = true.
Proof.
  unfold RegExp.CharacterSetMatcher. cbn [RegExp.remaining RegExp.endIndex].
  destruct input as [|ch rest].
  - split; [discriminate|]. intros (? & ? & E & _). discriminate.
  - rewrite andb_true_iff. split.
    + intros [H1 H2]. exists ch, rest. auto.
    + intros (ch' & rest' & E & H1 & H2). inversion E; subst. auto.
Qed.

Lemma tail_nodes_match (cs : list ascii) :
  forall (i : nat) (input : list ascii),
    RegExp.CompileNode (fold_right RegExp.Seq RegExp.Empty (tail_nodes cs))
      {| RegExp.endIndex := i; RegExp.remaining := input |} (fun _ => true) = true
    <-> follows cs input.
Proof.
  induction cs as [|c cs IH]; intros i input.
  - simpl. split; [intros _; constructor | reflexivity].
  - cbn [tail_nodes flat_map app fold_right RegExp.CompileNode RegExp.remaining].
    fold (tail_nodes cs). fold (RegExp.CompileNode RegExp.Dot).
    rewrite RepeatMatcher_Dot by lia. split.
    + intros (gap & rest & E & Hgap & H).
      apply CharacterSetMatcher_true in H.
      destruct H as (ch & rest' & E' & Hch & H). apply IH in H.
      subst. constructor; assumption.
    + intros H. inversion H as [|? ? gap x t Hgap Hx Ht]; subst.
      exists gap, (x :: t). split; [reflexivity|]. split; [exact Hgap|].
      apply CharacterSetMatcher_true. exists x, t.
      split; [reflexivity|]. split; [exact Hx|]. apply IH. exact Ht.
Qed.

Lemma search_true (m : RegExp.Matcher) (input : list ascii) :
  forall i,
    RegExp.search m i input = true
    <-> exists before after,
          input = before ++ after
          /\ m {| RegExp.endIndex := i + length before; RegExp.remaining := after |}
               (fun _ => true) = true.
Proof.
  induction input as [|x input IH]; intros i; cbn [RegExp.search]; rewrite orb_true_iff.
  - split.
    + intros [H|H]; [|discriminate]. exists [], []. rewrite Nat.add_0_r. auto.
    + intros (before & after & E & H). left.
      symmetry in E. apply app_eq_nil in E. destruct E; subst.
      rewrite Nat.add_0_r in H. exact H.
  - rewrite IH. split.
    + intros [H|(before & after & E & H)].
      * exists [], (x :: input). rewrite Nat.add_0_r. auto.
      * exists (x :: before), after. subst. split; [reflexivity|].
        cbn [length]. rewrite Nat.add_succ_r. exact H.
    + intros (before & after & E & H). destruct before as [|b before].
      * left. cbn [app length] in *. subst. rewrite Nat.add_0_r in H. exact H.
      * right. inversion E; subst. exists before, after. split; [reflexivity|].
        cbn [length] in H. rewrite Nat.add_succ_r in H. exact H.
Qed.

Lemma fuzzy_node_test (cs target : list ascii) :
  RegExp.search (RegExp.CompileNode (fuzzy_node cs)) 0 target = true
  <-> fuzzy_occurs cs target.
Proof.
  rewrite search_true. destruct cs as [|c cs].
  - simpl. split; [trivial|]. intros _. exists [], target. auto.
  - cbn [fuzzy_node fuzzy_occurs fold_right RegExp.CompileNode]. split.
    + intros (before & after & E & H).
      apply CharacterSetMatcher_true in H. destruct H as (ch & rest & E' & Hch & H).
      apply tail_nodes_match in H. subst. exists before, ch, rest. auto.
    + intros (before & x & after & E & Hx & H).
      exists before, (x :: after). split; [exact E|].
      apply CharacterSetMatcher_true. exists x, after.
      split; [reflexivity|]. split; [exact Hx|]. apply tail_nodes_match. exact H.
Qed.

(** *** Fuzzy occurrence and subsequences *)

Lemma in_order_skip_all (s gap t : list ascii) : in_order s t -> in_order s (gap ++ t).
Proof. intros H. induction gap; simpl; [exact H | constructor; assumption]. Qed.

Lemma follows_in_order (cs t : list ascii) : follows cs t -> in_order cs t.
Proof.
  induction 1; [constructor|].
  apply in_order_skip_all. constructor; assumption.
Qed.

Lemma fuzzy_occurs_in_order (s t : list ascii) : fuzzy_occurs s t -> in_order s t.
Proof.
  destruct s as [|c cs]; [constructor|].
  intros (before & x & after & E & Hx & H). subst.
  apply in_order_skip_all. constructor; [exact Hx | apply follows_in_order; exact H].
Qed.

Lemma in_order_follows (cs t : list ascii) :
  single_line t -> in_order cs t -> follows cs t.
Proof.
  intros Ht H. induction H as [t|c cs x t Hx H IH|s x t H IH].
  - constructor.
  - inversion Ht; subst. apply (@follows_cons c cs [] x t); [constructor|exact Hx|auto].
  - inversion Ht as [|? ? Hx Ht']; subst. specialize (IH Ht').
    destruct IH as [t|c cs gap y t Hgap Hy Hrest]; [constructor|].
    apply (@follows_cons c cs (x :: gap) y t); [constructor|idtac|idtac]; assumption.
Qed.

Lemma in_order_fuzzy_occurs (s t : list ascii) :
  single_line t -> in_order s t -> fuzzy_occurs s t.
Proof.
  intros Ht H. induction H as [t|c cs x t Hx H _|s x t H IH].
  - exact I.
  - exists [], x, t. split; [reflexivity|]. split; [exact Hx|].
    inversion Ht; subst. apply in_order_follows; assumption.
  - inversion Ht as [|? ? Hx Ht']; subst. specialize (IH Ht').
    destruct s as [|c cs]; [exact I|].
    destruct IH as (before & y & after & E & Hy & Hf). subst.
    exists (x :: before), y, after. auto.
Qed.

(** C3, as the code has it: for every search string [s] without regex
    metacharacters, [getFuzzyRegex] builds a pattern that matches exactly the
    targets in which the characters of [s] occur in order, up to case, with
    any characters before the first and after the last one and with no line
    terminator between two of them.  So it matches every target made from
    [s] by inserting characters other than line terminators between its
    characters, it matches no target in which the characters of [s] do not
    occur in order, and on a target without line terminators it matches
    exactly when they do. *)
Theorem getFuzzyRegex_literal (s : string) :
  literal s = true ->
  exists re,
    getFuzzyRegex s = Resolved re
    /\ (forall t, RegExp_test re t = true <-> fuzzy_occurs (chars s) (chars t))
    /\ (forall t, RegExp_test re t = true -> in_order (chars s) (chars t))
    /\ (forall t, single_line (chars t) ->
                  in_order (chars s) (chars t) -> RegExp_test re t = true).
Proof.
  intros Hs. eexists. split; [apply getFuzzyRegex_literal_pattern; exact Hs|].
  unfold RegExp_test. cbn [pattern]. fold chars.
  split; [|split].
  - intros t. apply fuzzy_node_test.
  - intros t H. apply fuzzy_occurs_in_order, fuzzy_node_test. exact H.
  - intros t Ht H. apply fuzzy_node_test, in_order_fuzzy_occurs; assumption.
Qed.

Lemma getFuzzyRegex_literal_witness :
  exists re,
    getFuzzyRegex "ace" = Resolved re
    /\ (forall t, RegExp_test re t = true <-> fuzzy_occurs (chars "ace") (chars t))
    /\ (forall t, RegExp_test re t = true -> in_order (chars "ace") (chars t))
    /\ (forall t, single_line (chars t) ->
                  in_order (chars "ace") (chars t) -> RegExp_test re t = true).
Proof. apply (getFuzzyRegex_literal "ace"). reflexivity. Defined.

(** The example of the specification: the pattern of ["ace"] matches
    ["abcde"] and does not match ["aec"]. *)
Example getFuzzyRegex_ace :
  exists re,
    getFuzzyRegex "ace" = Resolved re
    /\ RegExp_test re "abcde" = true
    /\ RegExp_test re "aec" = false
    /\ RegExp_test re "xAyCzE" = true.
Proof. eexists. split; [reflexivity|]. repeat split. Qed.

(** C3 fails as stated: a line feed inserted between the two characters of
    ["ab"] gives a target that the pattern of ["ab"] does not match, the
    wildcard being a dot without the [s] flag. *)
Lemma getFuzzyRegex_line_terminator :
  literal "ab" = true
  /\ in_order (chars "ab") (chars a_newline_b)
  /\ exists re, getFuzzyRegex "ab" = Resolved re /\ RegExp_test re a_newline_b = false.
Proof.
  split; [reflexivity|]. split.
  - apply in_order_take; [reflexivity|].
    apply in_order_skip. apply in_order_take; [reflexivity|]. constructor.
  - eexists. split; reflexivity.
Qed.

(** ** getFuzzyRegex on search strings with regex metacharacters *)

(** C1: the search string ["a.*b"] of the specification has no pattern at
    all, the constructor rejects the text built from it; the pattern built
    from ["a.b"] matches ["axb"], a target without any dot, so the dot of the
    search string is not matched as a literal character. *)
Theorem getFuzzyRegex_metacharacters :
  getFuzzyRegex "a.*b" = Rejected (SyntaxError NothingToRepeat)
  /\ exists re,
       getFuzzyRegex "a.b" = Resolved re
       /\ source re = "a.*\.*..*b"%string
       /\ RegExp_test re "axb" = true
       /\ existsb (Ascii.eqb ".") (chars "axb") = false.
Proof. split; [reflexivity|]. eexists. repeat split. Qed.

(** *** Every pattern text of getFuzzyRegex is inside the modelled grammar *)

Lemma step_covered (st : RegExp.State) (c : ascii) :
  pending st = false -> RegExp.step st c <> RegExp.NotCovered.
Proof.
  intros Hp H. destruct st as [[alts ts] enc l m].
  unfold pending in Hp. cbn [RegExp.mode RegExp.last] in Hp.
  unfold RegExp.step, RegExp.step_pattern, RegExp.step_class, RegExp.quantify,
    RegExp.question, RegExp.close_group in H.
  cbn [RegExp.mode RegExp.last RegExp.current RegExp.terms RegExp.enclosing] in H.
  destruct m; try discriminate; destruct l; try discriminate;
    split_cases H; discriminate.
Qed.

Lemma step_dot_covered (st : RegExp.State) :
  match RegExp.step st "." with
  | RegExp.Pattern st' => pending st' = false
  | RegExp.Invalid _ => True
  | RegExp.NotCovered => False
  end.
Proof.
  destruct st as [[alts ts] enc l m]. destruct m; reflexivity.
Qed.

Lemma step_star_settled (st : RegExp.State) :
  pending st = false ->
  match RegExp.step st "*" with
  | RegExp.Pattern st' => pending st' = false
  | RegExp.Invalid _ => True
  | RegExp.NotCovered => False
  end.
Proof.
  intros Hp. destruct st as [[alts ts] enc l m].
  destruct m; try discriminate; try reflexivity.
  destruct l; try discriminate; try exact I; destruct ts; try exact I; reflexivity.
Qed.

Lemma steps_tail_text_covered (tokens : list ascii) :
  forall st, RegExp.steps st (tail_text tokens) <> RegExp.NotCovered.
Proof.
  induction tokens as [|t tokens IH]; intros st; [discriminate|].
  cbn [tail_text flat_map app RegExp.steps]. fold (tail_text tokens).
  pose proof (step_dot_covered st) as H1.
  destruct (RegExp.step st ".") as [st1| |]; [|discriminate|contradiction].
  pose proof (step_star_settled st1 H1) as H2.
  destruct (RegExp.step st1 "*") as [st2| |]; [|discriminate|contradiction].
  pose proof (@step_covered st2 t H2) as H3.
  destruct (RegExp.step st2 t) as [st3| |]; [apply IH|discriminate|contradiction].
Qed.

Lemma getFuzzyRegex_inside_fragment (input : string) :
  getFuzzyRegex input <> Rejected OutsideFragment.
Proof.
  unfold getFuzzyRegex, RegExp_new, RegExp.ParsePattern.
  fold (chars (join ".*" (split_chars (escapeInput input)))).
  rewrite join_split_chars.
  destruct (chars (escapeInput input)) as [|c rest].
  - discriminate.
  - cbn [RegExp.steps].
    pose proof (@step_covered RegExp.initial c eq_refl) as H.
    destruct (RegExp.step RegExp.initial c) as [st1| |];
      [|discriminate|contradiction].
    pose proof (steps_tail_text_covered rest st1) as H1.
    destruct (RegExp.steps st1 (tail_text rest)) as [st2| |];
      [|discriminate|contradiction].
    unfold RegExp.finish. destruct (RegExp.mode st2); try discriminate.
    destruct (RegExp.enclosing st2); discriminate.
Qed.

(** ** findByAttribute *)

(** The certifier clause is built first, whatever the attributes are; the
    fuzzy clauses come after it. *)
Lemma findByAttribute_certifier_clause_first (attributes : IdentityAttributes)
    (certifiers : option (list string)) (db : Collection) :
  attributes <> [] ->
  findByAttribute (Some attributes) certifiers db
  = (clauses <- await match get "any" attributes with
                      | Some any =>
                          match getFuzzyRegex any with
                          | Resolved re => Resolved [[(searchable_attributes, Like re)]]
                          | Rejected e => Rejected e
                          end
                      | None => attributeQueries attributes
                      end ;;
     findRecordWithQuery (Q_and ([(certificate_certifier, In_ certifiers)] :: clauses))) db.
Proof.
  intros Hne. unfold findByAttribute.
  destruct attributes as [|a attributes]; [contradiction|].
  cbn [Object_keys map length Nat.eqb].
  destruct (get "any" (a :: attributes)) as [any|]; [|reflexivity].
  unfold bind, await. destruct (getFuzzyRegex any); reflexivity.
Qed.

(** A query whose certifier clause asks for membership in an undefined set
    selects no record. *)
Lemma undefined_certifiers_select_nothing (clauses : list Filter) (db : Collection) :
  filter (selects (Q_and ([(certificate_certifier, In_ None)] :: clauses))) db = [].
Proof. induction db as [|r db IH]; [reflexivity|exact IH]. Qed.

(** With certifiers undefined, a call whose patterns all compile resolves
    with the empty list. *)
Lemma findByAttribute_undefined_certifiers (attributes : IdentityAttributes)
    (db : Collection) :
  attributes <> [] ->
  findByAttribute (Some attributes) None db = (Resolved [], db)
  \/ exists k, findByAttribute (Some attributes) None db = (Rejected (SyntaxError k), db).
Proof.
  intros Hne. rewrite findByAttribute_certifier_clause_first by exact Hne.
  unfold bind, await.
  destruct (match get "any" attributes with
            | Some any => _
            | None => _
            end) as [clauses|e] eqn:E.
  - left. rewrite findRecordWithQuery_eq, undefined_certifiers_select_nothing. reflexivity.
  - right. destruct e as [k|]; [exists k; reflexivity|]. exfalso.
    destruct (get "any" attributes) as [any|].
    + pose proof (getFuzzyRegex_inside_fragment any) as H.
      destruct (getFuzzyRegex any); [discriminate|]. congruence.
    + clear Hne. induction attributes as [|[key value] attributes IH]; [discriminate|].
      cbn [attributeQueries] in E.
      pose proof (getFuzzyRegex_inside_fragment value) as H.
      destruct (getFuzzyRegex value) as [re|e']; [|congruence].
      destruct (attributeQueries attributes); [discriminate|]. apply IH. congruence.
Qed.

(** The scenario of the specification. *)
Example findByAttribute_alice :
  fst (findByAttribute (Some [("name", "alcSm")%string]) (Some ["cert1"%string]) db_alice)
  = Resolved [{| UTXOReference.txid := "t1"; UTXOReference.outputIndex := 0 |}]
  /\ fst (findByAttribute (Some [("name", "alcSm")%string]) (Some ["cert2"%string]) db_alice)
     = Resolved []
  /\ fst (findByAttribute (Some [("any", "smith")%string]) (Some ["cert1"%string]) db_alice)
     = Resolved [{| UTXOReference.txid := "t1"; UTXOReference.outputIndex := 0 |}].
Proof. repeat split. Qed.

(** C4: with certifiers undefined and the search string ["*"], the call
    does not return an empty result: it is rejected with the SyntaxError of
    the RegExp constructor before any query reaches the store. *)
Theorem findByAttribute_undefined_certifiers_rejected :
  findByAttribute (Some [("any", "*")%string]) None db_alice
  = (Rejected (SyntaxError NothingToRepeat), db_alice).
Proof. reflexivity. Qed.



(** ** Missing and empty criteria *)

Lemma attributeQueries_literal (attributes : IdentityAttributes) :
  (forall key value, In (key, value) attributes -> literal value = true) ->
  exists clauses, attributeQueries attributes = Resolved clauses.
Proof.
  induction attributes as [|[key value] attributes IH]; intros H.
  - exists []. reflexivity.
  - cbn [attributeQueries].
    rewrite (getFuzzyRegex_literal_pattern value (H key value (or_introl eq_refl))).
    destruct IH as [clauses E]; [intros k v Hin; apply (H k v); right; exact Hin|].
    rewrite E. eexists. reflexivity.
Qed.

(** C2, as the code has it: no find operation rejects a missing or empty
    criterion.  An undefined or empty attributes object, an undefined
    identity key, an undefined or empty list of certifiers or of certificate
    types, and an undefined or empty serial number give the empty list; the
    empty string as identity key is not refused but looked up.
    [findByIdentityKey], [findByCertifier], [findByCertificateType] and
    [findByCertificateSerialNumber] resolve on every input, and
    [findByAttribute] resolves whenever its search strings hold no regex
    metacharacter. *)
Theorem find_operations_resolve (db : Collection) :
  (forall certifiers, findByAttribute None certifiers db = (Resolved [], db))
  /\ (forall certifiers, findByAttribute (Some []) certifiers db = (Resolved [], db))
  /\ (forall certifiers, findByIdentityKey None certifiers db = (Resolved [], db))
  /\ (forall certifiers, given certifiers = None ->
        findByCertifier certifiers db = (Resolved [], db))
  /\ (forall certificateTypes identityKey certifiers,
        given certificateTypes = None \/ identityKey = None \/ given certifiers = None ->
        findByCertificateType certificateTypes identityKey certifiers db = (Resolved [], db))
  /\ findByCertificateSerialNumber None db = (Resolved [], db)
  /\ findByCertificateSerialNumber (Some EmptyString) db = (Resolved [], db)
  /\ (forall certifiers,
        findByIdentityKey (Some EmptyString) certifiers db
        = findRecordWithQuery
            (Q_filter ((certificate_subject, Is EmptyString)
                       :: match given certifiers with
                          | Some _ => [(certificate_certifier, In_ certifiers)]
                          | None => []
                          end)) db)
  /\ (forall identityKey certifiers,
        exists refs, findByIdentityKey identityKey certifiers db = (Resolved refs, db))
  /\ (forall certifiers, exists refs, findByCertifier certifiers db = (Resolved refs, db))
  /\ (forall certificateTypes identityKey certifiers,
        exists refs,
          findByCertificateType certificateTypes identityKey certifiers db
          = (Resolved refs, db))
  /\ (forall serial,
        exists refs, findByCertificateSerialNumber serial db = (Resolved refs, db))
  /\ (forall attributes certifiers,
        (forall key value, In (key, value) attributes -> literal value = true) ->
        exists refs, findByAttribute (Some attributes) certifiers db = (Resolved refs, db)).
Proof.
  repeat match goal with |- _ /\ _ => split end; try reflexivity.
  - intros [[|c cs]|] H; try reflexivity. discriminate.
  - intros [[|t ts]|] [key|] [[|c cs]|] H; try reflexivity.
    destruct H as [H|[H|H]]; discriminate.
  - intros [[|c cs]|]; reflexivity.
  - intros [key|] cs; eexists; reflexivity.
  - intros [[|c cs]|]; eexists; reflexivity.
  - intros [[|t ts]|] [key|] [[|c cs]|]; eexists; reflexivity.
  - intros [s|]; [|eexists; reflexivity]. unfold findByCertificateSerialNumber.
    destruct (String.eqb s ""); eexists; reflexivity.
  - intros attributes cs H. destruct attributes as [|a attributes]; [eexists; reflexivity|].
    rewrite findByAttribute_certifier_clause_first by discriminate.
    unfold bind, await.
    destruct (get "any" (a :: attributes)) as [any|] eqn:E.
    + assert (Hany : literal any = true).
      { clear - E H. revert E H. generalize (a :: attributes). intros l.
        induction l as [|[k v] l IH]; [discriminate|]. cbn [get]. intros E H.
        destruct (String.eqb k "any").
        - inversion E; subst. apply (H k any). left. reflexivity.
        - apply IH; [exact E|]. intros k' v' Hin. apply (H k' v'). right. exact Hin. }
      rewrite (getFuzzyRegex_literal_pattern any Hany). eexists. reflexivity.
    + destruct (attributeQueries_literal (a :: attributes) H) as [clauses Ec].
      rewrite Ec. eexists. reflexivity.
Qed.

Lemma find_operations_resolve_witness :
  findByCertifier (Some []) db_alice = (Resolved [], db_alice)
  /\ findByCertificateType (Some ["typeA"%string]) None (Some ["cert1"%string]) db_alice
     = (Resolved [], db_alice)
  /\ exists refs,
       findByAttribute (Some [("name", "alcSm")%string]) (Some ["cert1"%string]) db_alice
       = (Resolved refs, db_alice).
Proof.
  destruct (find_operations_resolve db_alice)
    as (_ & _ & _ & Hc & Ht & _ & _ & _ & _ & _ & _ & _ & Ha).
  split; [apply Hc; reflexivity|].
  split; [apply Ht; right; left; reflexivity|].
  apply Ha. intros key value [E|[]]. inversion E. reflexivity.
Defined.

(** C2 fails as stated: the empty string as identity key is answered from
    the store, and a search string that is a lone [*] is rejected with a
    SyntaxError. *)
Lemma find_operations_counterexample :
  fst (findByIdentityKey (Some ""%string) (Some ["cert1"%string]) db_unnamed)
  = Resolved [{| UTXOReference.txid := "t1"; UTXOReference.outputIndex := 0 |}]
  /\ fst (findByAttribute (Some [("any", "*")%string]) (Some ["cert1"%string]) db_unnamed)
     = Rejected (SyntaxError NothingToRepeat).
Proof. split; reflexivity. Qed.

(** ** The find operations read, and project what they read *)

Lemma occurrences_answer (selected : IdentityRecord -> bool) (ref : UTXOReference.t)
    (db : Collection) :
  occurrences ref (answer selected db)
  = length (filter (fun r => selected r && carries ref r) db).
Proof.
  unfold occurrences, answer, carries. induction db as [|r db IH]; [reflexivity|].
  cbn [filter]. destruct (selected r); cbn [andb]; [|exact IH].
  cbn [map count_occ].
  destruct (UTXOReference_eq_dec (reference_of r) ref); cbn [length]; rewrite IH; reflexivity.
Qed.

Lemma answer_app (selected : IdentityRecord -> bool) (a b : Collection) :
  answer selected (a ++ b) = answer selected a ++ answer selected b.
Proof. unfold answer. rewrite filter_app, map_app. reflexivity. Qed.

(** C10: every find operation leaves the record collection unchanged: a call
    hands back the collection it was given, whether it refuses its input,
    resolves or is rejected.  What it resolves with is the projection to
    [{txid, outputIndex}] of the records that its query selects, one element
    for each selected record in collection order, for the query stated here
    operation by operation; so a reference occurs in the result as many times
    as selected records carry it, and a reference stored twice is returned
    twice. *)
Theorem find_operations_read_only :
  (forall query db,
      findRecordWithQuery query db = (Resolved (answer (selects query) db), db))
  /\ (forall attributes certifiers db,
        findByAttribute attributes certifiers db
        = match attributes with
          | None | Some [] => (Resolved [], db)
          | Some (a :: rest) =>
              match attribute_clauses (a :: rest) with
              | Resolved clauses =>
                  (Resolved
                     (answer (fun r => accepted certifiers (certifier (certificate r))
                                       && forallb (fun f => satisfies f r) clauses) db),
                   db)
              | Rejected e => (Rejected e, db)
              end
          end)
  /\ (forall identityKey certifiers db,
        findByIdentityKey identityKey certifiers db
        = (Resolved
             match identityKey with
             | None => []
             | Some key =>
                 answer (fun r => String.eqb (subject (certificate r)) key
                                  && match given certifiers with
                                     | Some certs => member (certifier (certificate r)) certs
                                     | None => true
                                     end) db
             end, db))
  /\ (forall certifiers db,
        findByCertifier certifiers db
        = (Resolved
             match given certifiers with
             | Some certs => answer (fun r => member (certifier (certificate r)) certs) db
             | None => []
             end, db))
  /\ (forall certificateTypes identityKey certifiers db,
        findByCertificateType certificateTypes identityKey certifiers db
        = (Resolved
             match given certificateTypes, identityKey, given certifiers with
             | Some types, Some key, Some certs =>
                 answer (fun r => String.eqb (subject (certificate r)) key
                                  && member (certifier (certificate r)) certs
                                  && member (type (certificate r)) types) db
             | _, _, _ => []
             end, db))
  /\ (forall serial db,
        findByCertificateSerialNumber serial db
        = (Resolved
             match serial with
             | Some s =>
                 if String.eqb s "" then []
                 else answer (fun r => String.eqb (serialNumber (certificate r)) s) db
             | None => []
             end, db))
  /\ (forall selected db, length (answer selected db) = length (filter selected db))
  /\ (forall selected db ref,
        occurrences ref (answer selected db)
        = length (filter (fun r => selected r && carries ref r) db))
  /\ (forall tx index cert now1 now2 db,
        occurrences (reference tx index)
          (resolved ((_ <- storeRecord tx index cert now1 ;;
                      _ <- storeRecord tx index cert now2 ;;
                      findByIdentityKey (Some (subject cert)) None) db))
        = 2 + occurrences (reference tx index)
                (resolved (findByIdentityKey (Some (subject cert)) None db))).
Proof.
  repeat match goal with |- _ /\ _ => split end.
  - intros query db. apply findRecordWithQuery_eq.
  - intros [[|a rest]|] certifiers db; try reflexivity.
    unfold findByAttribute, attribute_clauses. cbn [Object_keys map length Nat.eqb].
    unfold bind, await.
    assert (Hsel : forall clauses,
               findRecordWithQuery
                 (Q_and ([(certificate_certifier, In_ certifiers)] :: clauses)) db
               = (Resolved
                    (answer (fun r => accepted certifiers (certifier (certificate r))
                                      && forallb (fun f => satisfies f r) clauses) db), db)).
    { intros clauses. rewrite findRecordWithQuery_eq. unfold answer.
      do 3 f_equal. apply filter_ext_eq. intros r.
      cbn [selects forallb satisfies field_at]. rewrite andb_true_r.
      destruct certifiers; reflexivity. }
    destruct (get "any" (a :: rest)) as [any|].
    + destruct (getFuzzyRegex any) as [re|e]; [|reflexivity].
      rewrite <- app_comm_cons. cbn [app]. apply Hsel.
    + destruct (attributeQueries (a :: rest)) as [clauses|e]; [|reflexivity].
      rewrite <- app_comm_cons. cbn [app]. apply Hsel.
  - intros [key|] certifiers db; [|reflexivity].
    unfold findByIdentityKey, answer. rewrite findRecordWithQuery_eq.
    do 3 f_equal. apply filter_ext_eq. intros r.
    destruct certifiers as [[|c cs]|];
      cbn [given selects satisfies forallb holds field_at app];
      rewrite ?member_cons, ?andb_true_r; reflexivity.
  - intros [[|c cs]|] db; try reflexivity.
    unfold findByCertifier, answer. rewrite findRecordWithQuery_eq. cbn [given].
    do 3 f_equal. apply filter_ext_eq. intros r.
    cbn [selects satisfies forallb holds field_at]. rewrite member_cons, andb_true_r.
    reflexivity.
  - intros [[|t ts]|] [key|] [[|c cs]|] db; try reflexivity.
    unfold findByCertificateType, answer. rewrite findRecordWithQuery_eq. cbn [given].
    do 3 f_equal. apply filter_ext_eq. intros r.
    cbn [selects satisfies forallb holds field_at].
    rewrite !member_cons, andb_true_r, andb_assoc. reflexivity.
  - intros [s|] db; [|reflexivity]. unfold findByCertificateSerialNumber, answer.
    destruct (String.eqb s ""); [reflexivity|].
    rewrite findRecordWithQuery_eq. do 3 f_equal. apply filter_ext_eq. intros r.
    cbn [selects satisfies forallb holds field_at]. rewrite andb_true_r. reflexivity.
  - intros selected db. apply length_map.
  - intros selected db ref. apply occurrences_answer.
  - intros tx index cert now1 now2 db.
    unfold bind, storeRecord, insertOne, findByIdentityKey.
    rewrite !findRecordWithQuery_eq. unfold resolved, occurrences. cbn [fst].
    rewrite !filter_app, !map_app, !count_occ_app.
    cbn [filter selects satisfies forallb holds field_at certificate].
    rewrite String.eqb_refl. cbn [andb map reference_of txid outputIndex count_occ].
    repeat match goal with
           | |- context [UTXOReference_eq_dec ?a ?b] =>
               destruct (UTXOReference_eq_dec a b) as [_|N];
               [|exfalso; apply N; reflexivity]
           end.
    lia.
Qed.

(** * Further properties *)

(** ** deleteRecord *)

Lemma names_reference (tx : string) (index : Z) (r : IdentityRecord) :
  names tx index r = true <-> reference_of r = reference tx index.
Proof.
  unfold names, reference_of, reference. rewrite andb_true_iff, String.eqb_eq, Z.eqb_eq.
  split.
  - intros [E1 E2]. rewrite E1, E2. reflexivity.
  - intros E. inversion E. split; reflexivity.
Qed.

Lemma names_false (tx : string) (index : Z) (r : IdentityRecord) :
  reference_of r <> reference tx index -> names tx index r = false.
Proof.
  intros H. destruct (names tx index r) eqn:E; [|reflexivity].
  apply names_reference in E. contradiction.
Qed.

Lemma remove_first_absent (tx : string) (index : Z) (db : Collection) :
  absent (reference tx index) db -> remove_first (names tx index) db = db.
Proof.
  induction db as [|r db IH]; intros H; [reflexivity|].
  cbn [remove_first]. rewrite names_false by (apply H; left; reflexivity).
  rewrite IH; [reflexivity|]. intros r' Hr'. apply H. right. exact Hr'.
Qed.

Lemma remove_first_app (tx : string) (index : Z) (before after : Collection)
    (r : IdentityRecord) :
  absent (reference tx index) before ->
  reference_of r = reference tx index ->
  remove_first (names tx index) (before ++ r :: after) = before ++ after.
Proof.
  intros Hb Hr. induction before as [|b before IH]; cbn [app remove_first].
  - apply names_reference in Hr. rewrite Hr. reflexivity.
  - rewrite names_false by (apply Hb; left; reflexivity).
    rewrite IH; [reflexivity|]. intros r' Hr'. apply Hb. right. exact Hr'.
Qed.

Lemma first_under (ref : UTXOReference.t) (db : Collection) :
  (exists r, In r db /\ reference_of r = ref) ->
  exists before r after,
    db = before ++ r :: after /\ reference_of r = ref /\ absent ref before.
Proof.
  induction db as [|a db IH]; intros (r & Hin & Hr); [destruct Hin|].
  destruct (UTXOReference_eq_dec (reference_of a) ref) as [E|N].
  - exists [], a, db. split; [reflexivity|]. split; [exact E|]. intros r' [].
  - destruct IH as (before & r' & after & Edb & Hr' & Hb).
    + destruct Hin as [<-|Hin]; [contradiction|]. exists r. auto.
    + exists (a :: before), r', after. subst db. split; [reflexivity|].
      split; [exact Hr'|]. intros x [<-|Hx]; [exact N|apply Hb; exact Hx].
Qed.

(** X1: deleting a reference under which nothing is stored is no error and
    leaves the collection as it was. *)
Theorem deleteRecord_absent (tx : string) (index : Z) (db : Collection) :
  absent (reference tx index) db ->
  deleteRecord tx index db = (Resolved tt, db).
Proof.
  intros H. unfold deleteRecord, deleteOne. rewrite remove_first_absent by exact H.
  reflexivity.
Qed.

Lemma deleteRecord_absent_witness :
  deleteRecord "t9" 0 db_alice = (Resolved tt, db_alice).
Proof.
  apply (@deleteRecord_absent "t9" 0 db_alice).
  intros r [<-|[]]. discriminate.
Defined.

(** X2: when records are stored under the reference, [deleteRecord]
    removes exactly one record, one that is stored under the reference, and
    nothing else: every other record stays, in its place. *)
Theorem deleteRecord_present (tx : string) (index : Z) (db : Collection) :
  (exists r, In r db /\ reference_of r = reference tx index) ->
  exists before r after,
    db = before ++ r :: after
    /\ reference_of r = reference tx index
    /\ deleteRecord tx index db = (Resolved tt, before ++ after).
Proof.
  intros H. destruct (@first_under (reference tx index) db H) as (before & r & after & E & Hr & Hb).
  exists before, r, after. repeat split; try assumption.
  unfold deleteRecord, deleteOne. subst db. rewrite remove_first_app by assumption.
  reflexivity.
Qed.

Lemma deleteRecord_present_witness :
  exists before r after,
    db_alice = before ++ r :: after
    /\ reference_of r = reference "t1" 0
    /\ deleteRecord "t1" 0 db_alice = (Resolved tt, before ++ after).
Proof.
  apply (@deleteRecord_present "t1" 0 db_alice).
  eexists. split; [left; reflexivity|reflexivity].
Defined.

(** X3: storing a certificate under a reference that was not in use and
    deleting that reference again gives back the collection. *)
Theorem store_then_delete (tx : string) (index : Z) (cert : Certificate) (now : Z)
    (db : Collection) :
  absent (reference tx index) db ->
  (_ <- storeRecord tx index cert now ;; deleteRecord tx index) db = (Resolved tt, db).
Proof.
  intros H. unfold bind, storeRecord, insertOne, deleteRecord, deleteOne.
  rewrite remove_first_app by (exact H || reflexivity).
  rewrite app_nil_r. reflexivity.
Qed.

Lemma store_then_delete_witness :
  (_ <- storeRecord "t2" 0 bob 0 ;; deleteRecord "t2" 0) db_alice = (Resolved tt, db_alice).
Proof.
  apply (@store_then_delete "t2" 0 bob 0 db_alice).
  intros r [<-|[]]. discriminate.
Defined.

(** X4: no check for duplicates is made and a delete removes one record
    only: after two certificates are stored under one unused reference,
    deleting the reference leaves the earlier records and exactly one of the
    two records just stored. *)
Theorem store_twice_then_delete (tx : string) (index : Z) (cert1 cert2 : Certificate)
    (now1 now2 : Z) (db : Collection) :
  absent (reference tx index) db ->
  exists r,
    (r = stored tx index cert1 now1 \/ r = stored tx index cert2 now2)
    /\ (_ <- storeRecord tx index cert1 now1 ;;
        _ <- storeRecord tx index cert2 now2 ;;
        deleteRecord tx index) db
       = (Resolved tt, db ++ [r]).
Proof.
  intros H. exists (stored tx index cert2 now2). split; [right; reflexivity|].
  unfold bind, storeRecord, insertOne, deleteRecord, deleteOne.
  rewrite <- app_assoc. cbn [app].
  rewrite remove_first_app by (exact H || reflexivity). reflexivity.
Qed.

Lemma store_twice_then_delete_witness :
  exists r,
    (r = stored "t2" 0 alice 1 \/ r = stored "t2" 0 bob 2)
    /\ (_ <- storeRecord "t2" 0 alice 1 ;;
        _ <- storeRecord "t2" 0 bob 2 ;;
        deleteRecord "t2" 0) db_alice
       = (Resolved tt, db_alice ++ [r]).
Proof.
  apply (@store_twice_then_delete "t2" 0 alice bob 1 2 db_alice).
  intros r [<-|[]]. discriminate.
Defined.

(** ** Deleting, then finding *)

Lemma findByAttribute_uniform attributes certifiers :
  uniform (findByAttribute attributes certifiers).
Proof.
  unfold findByAttribute. destruct attributes as [attributes|]; [|left; reflexivity].
  destruct (length (Object_keys attributes) =? 0); [left; reflexivity|].
  right. unfold bind, await.
  destruct (get "any" attributes) as [any|].
  - destruct (getFuzzyRegex any) as [re|e]; [left|right]; eexists; reflexivity.
  - destruct (attributeQueries attributes) as [qs|e]; [left|right]; eexists; reflexivity.
Qed.

Lemma findByIdentityKey_uniform identityKey certifiers :
  uniform (findByIdentityKey identityKey certifiers).
Proof.
  unfold findByIdentityKey. destruct identityKey; [|left; reflexivity].
  right. left. eexists. reflexivity.
Qed.

Lemma findByCertifier_uniform certifiers : uniform (findByCertifier certifiers).
Proof.
  unfold findByCertifier. destruct certifiers as [[|c cs]|]; try (left; reflexivity).
  right. left. eexists. reflexivity.
Qed.

Lemma findByCertificateType_uniform certificateTypes identityKey certifiers :
  uniform (findByCertificateType certificateTypes identityKey certifiers).
Proof.
  unfold findByCertificateType.
  destruct certificateTypes as [[|t ts]|]; try (left; reflexivity).
  destruct identityKey; try (left; reflexivity).
  destruct certifiers as [[|c cs]|]; try (left; reflexivity).
  right. left. eexists. reflexivity.
Qed.

Lemma findByCertificateSerialNumber_uniform serial :
  uniform (findByCertificateSerialNumber serial).
Proof.
  unfold findByCertificateSerialNumber. destruct serial as [s|]; [|left; reflexivity].
  destruct (String.eqb s ""); [left; reflexivity|].
  right. left. eexists. reflexivity.
Qed.

Lemma uniform_absent (op : Async (list UTXOReference.t)) (ref : UTXOReference.t)
    (db : Collection) :
  uniform op -> absent ref db -> ~ In ref (resolved (op db)).
Proof.
  intros [H|[[query H]|[e H]]] Ha; rewrite H; unfold resolved; cbn [fst]; try (intros []).
  rewrite findRecordWithQuery_eq. cbn [fst]. intros Hin.
  apply in_map_iff in Hin. destruct Hin as (r & E & Hr).
  apply filter_In in Hr. exact (Ha r (proj1 Hr) E).
Qed.

Lemma remove_only (tx : string) (index : Z) (db : Collection) :
  occurrences (reference tx index) (map reference_of db) = 1 ->
  absent (reference tx index) (remove_first (names tx index) db).
Proof.
  unfold occurrences. induction db as [|r db IH]; [discriminate|].
  cbn [map count_occ remove_first].
  destruct (UTXOReference_eq_dec (reference_of r) (reference tx index)) as [E|N].
  - intros H. apply names_reference in E. rewrite E.
    assert (H0 : count_occ UTXOReference_eq_dec (map reference_of db) (reference tx index) = 0)
      by lia.
    intros r' Hr' Er'. apply (proj2 (count_occ_not_In UTXOReference_eq_dec _ _) H0).
    apply in_map_iff. exists r'. auto.
  - intros H. rewrite names_false by exact N.
    intros r' [<-|Hr']; [exact N|apply IH; assumption].
Qed.

Lemma count_after_remove (tx : string) (index : Z) (ref : UTXOReference.t)
    (p : IdentityRecord -> bool) (db : Collection) :
  ref <> reference tx index ->
  count_occ UTXOReference_eq_dec
    (map reference_of (filter p (remove_first (names tx index) db))) ref
  = count_occ UTXOReference_eq_dec (map reference_of (filter p db)) ref.
Proof.
  intros Hne. induction db as [|r db IH]; [reflexivity|].
  cbn [remove_first filter]. destruct (names tx index r) eqn:E.
  - apply names_reference in E. destruct (p r); [|reflexivity].
    cbn [map count_occ].
    destruct (UTXOReference_eq_dec (reference_of r) ref) as [E'|_]; [|reflexivity].
    exfalso. apply Hne. rewrite <- E', E. reflexivity.
  - cbn [filter]. destruct (p r); [|exact IH].
    cbn [map count_occ]. rewrite IH. reflexivity.
Qed.

Lemma uniform_other_reference (op : Async (list UTXOReference.t)) (tx : string)
    (index : Z) (ref : UTXOReference.t) (db : Collection) :
  uniform op ->
  ref <> reference tx index ->
  occurrences ref (resolved (op (remove_first (names tx index) db)))
  = occurrences ref (resolved (op db)).
Proof.
  intros [H|[[query H]|[e H]]] Hne; rewrite !H; unfold resolved, occurrences;
    cbn [fst]; try reflexivity.
  rewrite !findRecordWithQuery_eq. cbn [fst]. apply count_after_remove. exact Hne.
Qed.

(** X5: once the only record stored under a reference is deleted, no find
    operation returns that reference, whatever it is asked. *)
Theorem delete_then_find (tx : string) (index : Z) (db : Collection) :
  occurrences (reference tx index) (map reference_of db) = 1 ->
  forall db', snd (deleteRecord tx index db) = db' ->
    (forall attributes certifiers,
        ~ In (reference tx index) (resolved (findByAttribute attributes certifiers db')))
    /\ (forall identityKey certifiers,
          ~ In (reference tx index) (resolved (findByIdentityKey identityKey certifiers db')))
    /\ (forall certifiers,
          ~ In (reference tx index) (resolved (findByCertifier certifiers db')))
    /\ (forall certificateTypes identityKey certifiers,
          ~ In (reference tx index)
              (resolved (findByCertificateType certificateTypes identityKey certifiers db')))
    /\ (forall serial,
          ~ In (reference tx index) (resolved (findByCertificateSerialNumber serial db'))).
Proof.
  intros H db' <-. cbn [deleteRecord deleteOne snd].
  pose proof (@remove_only tx index db H) as Ha.
  repeat split; intros; apply uniform_absent; try exact Ha.
  - apply findByAttribute_uniform.
  - apply findByIdentityKey_uniform.
  - apply findByCertifier_uniform.
  - apply findByCertificateType_uniform.
  - apply findByCertificateSerialNumber_uniform.
Qed.

Lemma delete_then_find_witness :
  ~ In (reference "t1" 0)
      (resolved (findByIdentityKey (Some "pub1"%string) None
                   (snd (deleteRecord "t1" 0 db_alice)))).
Proof.
  destruct (@delete_then_find "t1" 0 db_alice eq_refl
              (snd (deleteRecord "t1" 0 db_alice)) eq_refl) as (_ & H & _).
  apply H.
Defined.

(** X6: deleting one reference changes no answer about another one: every
    find operation returns any other reference as many times after the
    delete as before it. *)
Theorem delete_keeps_other_references (tx : string) (index : Z)
    (ref : UTXOReference.t) (db : Collection) :
  ref <> reference tx index ->
  forall db', snd (deleteRecord tx index db) = db' ->
    (forall attributes certifiers,
        occurrences ref (resolved (findByAttribute attributes certifiers db'))
        = occurrences ref (resolved (findByAttribute attributes certifiers db)))
    /\ (forall identityKey certifiers,
          occurrences ref (resolved (findByIdentityKey identityKey certifiers db'))
          = occurrences ref (resolved (findByIdentityKey identityKey certifiers db)))
    /\ (forall certifiers,
          occurrences ref (resolved (findByCertifier certifiers db'))
          = occurrences ref (resolved (findByCertifier certifiers db)))
    /\ (forall certificateTypes identityKey certifiers,
          occurrences ref
            (resolved (findByCertificateType certificateTypes identityKey certifiers db'))
          = occurrences ref
              (resolved (findByCertificateType certificateTypes identityKey certifiers db)))
    /\ (forall serial,
          occurrences ref (resolved (findByCertificateSerialNumber serial db'))
          = occurrences ref (resolved (findByCertificateSerialNumber serial db))).
Proof.
  intros Hne db' <-. cbn [deleteRecord deleteOne snd].
  repeat split; intros; apply uniform_other_reference; try exact Hne.
  - apply findByAttribute_uniform.
  - apply findByIdentityKey_uniform.
  - apply findByCertifier_uniform.
  - apply findByCertificateType_uniform.
  - apply findByCertificateSerialNumber_uniform.
Qed.

Lemma delete_keeps_other_references_witness :
  occurrences (reference "t1" 0)
    (resolved (findByCertifier (Some ["cert1"%string])
                 (snd (deleteRecord "t2" 0 (snd (storeRecord "t2" 0 bob 0 db_alice))))))
  = occurrences (reference "t1" 0)
      (resolved (findByCertifier (Some ["cert1"%string])
                   (snd (storeRecord "t2" 0 bob 0 db_alice)))).
Proof.
  destruct (@delete_keeps_other_references "t2" 0 (reference "t1" 0)
              (snd (storeRecord "t2" 0 bob 0 db_alice))
              ltac:(discriminate) _ eq_refl) as (_ & _ & H & _).
  apply H.
Defined.

(** ** findByCertifier and findByCertificateSerialNumber *)



(** ** Storing, then finding *)

Lemma storeRecord_eq (tx : string) (index : Z) (cert : Certificate) (now : Z)
    (db : Collection) :
  storeRecord tx index cert now db = (Resolved tt, db ++ [stored tx index cert now]).
Proof. reflexivity. Qed.

Lemma fresh_record_found (query : Query) (r : IdentityRecord) (db : Collection) :
  absent (reference_of r) db ->
  occurrences (reference_of r) (resolved (findRecordWithQuery query (db ++ [r])))
  = if selects query r then 1 else 0.
Proof.
  intros H. rewrite findRecordWithQuery_eq. unfold resolved, occurrences. cbn [fst].
  rewrite filter_app, map_app, count_occ_app, count_occ_absent by exact H.
  cbn [filter]. destruct (selects query r); [|reflexivity].
  cbn [map count_occ].
  destruct (UTXOReference_eq_dec (reference_of r) (reference_of r)) as [_|N];
    [reflexivity|contradiction].
Qed.

(** X9: a certificate stored under an unused reference is returned by
    [findByCertifier] exactly once when its certifier is among the given
    certifiers, and not at all otherwise. *)
Theorem store_then_findByCertifier (tx : string) (index : Z) (cert : Certificate)
    (now : Z) (certifiers : list string) (db : Collection) :
  absent (reference tx index) db ->
  occurrences (reference tx index)
    (resolved ((_ <- storeRecord tx index cert now ;;
                findByCertifier (Some certifiers)) db))
  = if member (certifier cert) certifiers then 1 else 0.
Proof.
  intros H. unfold bind. rewrite storeRecord_eq.
  destruct certifiers as [|c cs]; [reflexivity|].
  unfold findByCertifier.
  rewrite (@fresh_record_found _ (stored tx index cert now) db H).
  cbn [selects satisfies forallb holds field_at stored certificate].
  rewrite member_cons, andb_true_r. reflexivity.
Qed.

Lemma store_then_findByCertifier_witness :
  occurrences (reference "t2" 0)
    (resolved ((_ <- storeRecord "t2" 0 bob 0 ;;
                findByCertifier (Some ["cert1"; "cert2"]%string)) db_alice))
  = if member (certifier bob) ["cert1"; "cert2"]%string then 1 else 0.
Proof.
  apply (@store_then_findByCertifier "t2" 0 bob 0 ["cert1"; "cert2"]%string db_alice).
  intros r [<-|[]]. discriminate.
Defined.

(** X10: a certificate stored under an unused reference is returned by
    [findByCertificateSerialNumber] exactly once when the given serial number
    is its own and is not the empty string, and not at all otherwise. *)
Theorem store_then_findByCertificateSerialNumber (tx : string) (index : Z)
    (cert : Certificate) (now : Z) (serial : string) (db : Collection) :
  absent (reference tx index) db ->
  occurrences (reference tx index)
    (resolved ((_ <- storeRecord tx index cert now ;;
                findByCertificateSerialNumber (Some serial)) db))
  = if String.eqb (serialNumber cert) serial && negb (String.eqb serial "")
    then 1 else 0.
Proof.
  intros H. unfold bind. rewrite storeRecord_eq.
  unfold findByCertificateSerialNumber.
  destruct (String.eqb serial ""); [rewrite andb_false_r; reflexivity|].
  rewrite (@fresh_record_found _ (stored tx index cert now) db H).
  cbn [selects satisfies forallb holds field_at stored certificate].
  rewrite !andb_true_r. reflexivity.
Qed.

Lemma store_then_findByCertificateSerialNumber_witness :
  occurrences (reference "t2" 0)
    (resolved ((_ <- storeRecord "t2" 0 bob 0 ;;
                findByCertificateSerialNumber (Some "sn2"%string)) db_alice))
  = if String.eqb (serialNumber bob) "sn2" && negb (String.eqb "sn2" "") then 1 else 0.
Proof.
  apply (@store_then_findByCertificateSerialNumber "t2" 0 bob 0 "sn2" db_alice).
  intros r [<-|[]]. discriminate.
Defined.

(** X11: a certificate stored under an unused reference is returned by
    [findByCertificateType] exactly once when its type is among the given
    types, its subject is the given identity key and its certifier is among
    the given certifiers, and not at all otherwise. *)
Theorem store_then_findByCertificateType (tx : string) (index : Z) (cert : Certificate)
    (now : Z) (certificateTypes : list string) (identityKey : string)
    (certifiers : list string) (db : Collection) :
  absent (reference tx index) db ->
  occurrences (reference tx index)
    (resolved ((_ <- storeRecord tx index cert now ;;
                findByCertificateType (Some certificateTypes) (Some identityKey)
                  (Some certifiers)) db))
  = if member (type cert) certificateTypes
       && String.eqb (subject cert) identityKey
       && member (certifier cert) certifiers
    then 1 else 0.
Proof.
  intros H. unfold bind. rewrite storeRecord_eq.
  destruct certificateTypes as [|t ts]; [reflexivity|].
  destruct certifiers as [|c cs]; [rewrite andb_false_r; reflexivity|].
  unfold findByCertificateType.
  rewrite (@fresh_record_found _ (stored tx index cert now) db H).
  cbn [selects satisfies forallb holds field_at stored certificate].
  rewrite !member_cons, andb_true_r.
  destruct (member (type cert) (t :: ts)), (String.eqb (subject cert) identityKey),
    (member (certifier cert) (c :: cs)); reflexivity.
Qed.

Lemma store_then_findByCertificateType_witness :
  occurrences (reference "t2" 0)
    (resolved ((_ <- storeRecord "t2" 0 bob 0 ;;
                findByCertificateType (Some ["typeB"%string]) (Some "pub2"%string)
                  (Some ["cert2"%string])) db_alice))
  = if member (type bob) ["typeB"%string]
       && String.eqb (subject bob) "pub2"
       && member (certifier bob) ["cert2"%string]
    then 1 else 0.
Proof.
  apply (@store_then_findByCertificateType "t2" 0 bob 0 ["typeB"%string] "pub2"
           ["cert2"%string] db_alice).
  intros r [<-|[]]. discriminate.
Defined.

(** ** The certifiers of findByIdentityKey *)

Lemma filter_incl_pred {A : Type} (f g : A -> bool) (l : list A) :
  (forall a, f a = true -> g a = true) -> incl (filter f l) (filter g l).
Proof.
  intros H a Ha. apply filter_In in Ha. apply filter_In.
  split; [exact (proj1 Ha) | apply H; exact (proj2 Ha)].
Qed.

(** X12: for [findByIdentityKey] an empty list of certifiers is the same as
    no list: the key alone decides; and a list of certifiers only narrows the
    answer, every reference returned with the list is returned without
    it. *)
Theorem findByIdentityKey_certifiers (identityKey : option string)
    (certifiers : list string) (db : Collection) :
  findByIdentityKey identityKey (Some []) db = findByIdentityKey identityKey None db
  /\ incl (resolved (findByIdentityKey identityKey (Some certifiers) db))
          (resolved (findByIdentityKey identityKey None db)).
Proof.
  split; [reflexivity|].
  destruct identityKey as [key|]; [|intros x []].
  unfold findByIdentityKey. rewrite !findRecordWithQuery_eq. unfold resolved. cbn [fst].
  apply incl_map. apply filter_incl_pred. intros r.
  destruct certifiers as [|c cs]; [trivial|].
  cbn [selects satisfies forallb holds field_at app]. intros Hr.
  apply andb_true_iff in Hr. rewrite (proj1 Hr). reflexivity.
Qed.

(** ** What findByAttribute selects for literal search strings *)

Lemma fuzzy_regexp_test (value text : string) :
  RegExp_test (fuzzy_regexp value) text = true
  <-> fuzzy_occurs (chars value) (chars text).
Proof. apply fuzzy_node_test. Qed.

Lemma holds_certifier (certifiers : option (list string)) (c : string) :
  holds (In_ certifiers) (Some c) = accepted certifiers c.
Proof. destruct certifiers; reflexivity. Qed.







Lemma empty_pattern_test (text : string) :
  RegExp_test {| source := ""; pattern := RegExp.Empty |} text = true.
Proof.
  unfold RegExp_test. cbn [pattern]. destruct (list_ascii_of_string text); reflexivity.
Qed.

(** X15: the empty search string under the key [any] restricts nothing: the
    call returns one reference for each record whose certifier is among the
    given certifiers. *)
Theorem findByAttribute_any_empty (attributes : IdentityAttributes)
    (certifiers : option (list string)) (db : Collection) :
  get "any" attributes = Some EmptyString ->
  findByAttribute (Some attributes) certifiers db
  = (Resolved
       (map reference_of
          (filter (fun r => accepted certifiers (certifier (certificate r))) db)), db).
Proof.
  intros Hany.
  rewrite findByAttribute_certifier_clause_first by (destruct attributes; discriminate).
  rewrite Hany. unfold bind, await.
  change (getFuzzyRegex "") with (Resolved {| source := ""; pattern := RegExp.Empty |}).
  cbv beta iota. rewrite findRecordWithQuery_eq. do 3 f_equal. apply filter_ext_eq. intros r.
  cbn [selects forallb satisfies field_at].
  rewrite holds_certifier. cbn [holds].
  rewrite empty_pattern_test, !andb_true_r. reflexivity.
Qed.

Lemma findByAttribute_any_empty_witness :
  findByAttribute (Some [("any", "")%string]) (Some ["cert1"%string]) db_alice
  = (Resolved
       (map reference_of
          (filter (fun r => accepted (Some ["cert1"%string]) (certifier (certificate r)))
             db_alice)), db_alice).
Proof.
  apply (@findByAttribute_any_empty [("any", "")%string] (Some ["cert1"%string]) db_alice).
  reflexivity.
Defined.

(** X16: with an empty list of certifiers [findByAttribute] returns no
    reference, whatever the attributes and the collection; unlike
    [findByIdentityKey], it does not read an empty list as no restriction. *)
Theorem findByAttribute_no_certifiers (attributes : option IdentityAttributes)
    (db : Collection) :
  resolved (findByAttribute attributes (Some []) db) = [].
Proof.
  destruct attributes as [[|a attributes]|]; try reflexivity.
  rewrite findByAttribute_certifier_clause_first by discriminate.
  unfold bind, await.
  destruct (match get "any" (a :: attributes) with
            | Some any => _
            | None => _
            end) as [clauses|e]; [|reflexivity].
  rewrite findRecordWithQuery_eq. unfold resolved. cbn [fst].
  replace (filter _ db) with (@nil IdentityRecord); [reflexivity|].
  symmetry. induction db as [|r db IH]; [reflexivity|exact IH].
Qed.

(** ** Storing, then searching the text *)









(** A field whose name holds a dot is not reached by a search on that
    name: the store reads the name as a path. *)
Example findByAttribute_dotted_key :
  resolved ((_ <- storeRecord "t4" 0 dotted_field 0 ;;
             findByAttribute (Some [("a.b", "x")%string]) (Some ["cert1"%string])) [])
  = []
  /\ resolved ((_ <- storeRecord "t4" 0 dotted_field 0 ;;
                findByAttribute (Some [("a", "x")%string]) (Some ["cert1"%string])) [])
     = [reference "t4" 0].
Proof. split; reflexivity. Qed.

Lemma nothing_textual (fs : list (string * string)) :
  (forall key value, In (key, value) fs -> textual key = false) ->
  filter (fun '(key, _) => negb (String.eqb key "profilePhoto")
                           && negb (String.eqb key "icon")) fs = [].
Proof.
  induction fs as [|[key value] fs IH]; intros H; [reflexivity|].
  cbn [filter]. pose proof (H key value (or_introl eq_refl)) as Hk.
  unfold textual in Hk. rewrite Hk. apply IH.
  intros k v Hin. apply (H k v). right. exact Hin.
Qed.

(** X19: the values stored under [profilePhoto] and [icon] are not
    searchable: storing a certificate that has no other fields changes the
    answer of no free-text search with a non-empty search string free of
    regex metacharacters. *)
Theorem pictures_are_not_searchable (tx : string) (index : Z) (cert : Certificate)
    (now : Z) (search : string) (certifiers : option (list string)) (db : Collection) :
  (forall key value, In (key, value) (fields cert) -> textual key = false) ->
  literal search = true ->
  search <> EmptyString ->
  resolved ((_ <- storeRecord tx index cert now ;;
             findByAttribute (Some [("any"%string, search)]) certifiers) db)
  = resolved (findByAttribute (Some [("any"%string, search)]) certifiers db).
Proof.
  intros Hfields Hlit Hne. unfold bind. rewrite storeRecord_eq.
  rewrite !findByAttribute_certifier_clause_first by discriminate.
  cbn [get String.eqb Ascii.eqb Bool.eqb].
  rewrite (getFuzzyRegex_literal_pattern search Hlit). unfold bind, await.
  rewrite !findRecordWithQuery_eq. unfold resolved. cbn [fst].
  rewrite filter_app.
  replace (filter _ [stored tx index cert now]) with (@nil IdentityRecord);
    [rewrite app_nil_r; reflexivity|].
  cbn [filter selects forallb satisfies field_at holds stored searchableAttributes].
  rewrite (nothing_textual (fields cert) Hfields). cbn [map].
  fold (fuzzy_regexp search).
  destruct (RegExp_test (fuzzy_regexp search) (join " " [])) eqn:E;
    [|rewrite andb_false_r; reflexivity].
  exfalso. apply fuzzy_regexp_test in E.
  destruct search as [|c search]; [apply Hne; reflexivity|].
  destruct E as (before & x & after & E & _). destruct before; discriminate.
Qed.

Lemma pictures_are_not_searchable_witness :
  resolved ((_ <- storeRecord "t3" 0 pictures 0 ;;
             findByAttribute (Some [("any", "cafe")%string])
               (Some ["cert1"%string])) db_alice)
  = resolved (findByAttribute (Some [("any", "cafe")%string])
                (Some ["cert1"%string]) db_alice).
Proof.
  apply (@pictures_are_not_searchable "t3" 0 pictures 0 "cafe" (Some ["cert1"%string])
           db_alice).
  - intros key value [E|[E|[]]]; inversion E; reflexivity.
  - reflexivity.
  - discriminate.
Defined.

(** ** getFuzzyRegex: search strings it rejects *)

Lemma escapeInput_app (a b : string) :
  escapeInput (a ++ b) = (escapeInput a ++ escapeInput b)%string.
Proof.
  induction a as [|c a IH]; [reflexivity|]. cbn [append escapeInput].
  destruct (regexSpecial c); cbn [append]; rewrite IH; reflexivity.
Qed.

Lemma tail_text_app (a b : list ascii) : tail_text (a ++ b) = tail_text a ++ tail_text b.
Proof. apply flat_map_app. Qed.

Lemma steps_app (a b : list ascii) :
  forall st,
    RegExp.steps st (a ++ b)
    = match RegExp.steps st a with
      | RegExp.Pattern st' => RegExp.steps st' b
      | failure => failure
      end.
Proof.
  induction a as [|c a IH]; intros st; [reflexivity|].
  cbn [app RegExp.steps]. destruct (RegExp.step st c); try reflexivity. apply IH.
Qed.

(** After a wildcard, an escaped quantifier has nothing to repeat. *)
Lemma steps_escaped_quantifier (st : RegExp.State) (m : ascii) (rest : list ascii) :
  RegExp.mode st = RegExp.InPattern ->
  m = "*"%char \/ m = "+"%char ->
  RegExp.steps st (tail_text ("\"%char :: m :: rest)) = RegExp.Invalid NothingToRepeat.
Proof.
  intros Hm Hq. cbn [tail_text flat_map app RegExp.steps].
  rewrite (step_dot st Hm). destruct Hq; subst m; reflexivity.
Qed.

Lemma getFuzzyRegex_quantifier (prefix rest : string) (m : ascii) :
  literal prefix = true ->
  m = "*"%char \/ m = "+"%char ->
  getFuzzyRegex (prefix ++ String m rest) = Rejected (SyntaxError NothingToRepeat).
Proof.
  intros Hlit Hq. unfold getFuzzyRegex, RegExp_new, RegExp.ParsePattern.
  fold (chars (join ".*" (split_chars (escapeInput (prefix ++ String m rest))))).
  rewrite join_split_chars, escapeInput_app, (escapeInput_literal prefix Hlit), chars_append.
  assert (Hm : regexSpecial m = true) by (destruct Hq; subst m; reflexivity).
  cbn [escapeInput]. rewrite Hm.
  change (chars (String "\" (String m (escapeInput rest))))
    with ("\"%char :: m :: chars (escapeInput rest)).
  unfold literal in Hlit. destruct (chars prefix) as [|c p].
  - cbn [app tail_text flat_map RegExp.steps]. destruct Hq; subst m; reflexivity.
  - cbn [forallb] in Hlit. apply andb_true_iff in Hlit. destruct Hlit as [Hc Hp].
    apply negb_true_iff in Hc.
    cbn [app RegExp.steps].
    rewrite step_literal; [|exact Hc|reflexivity|discriminate].
    rewrite tail_text_app, steps_app.
    destruct (steps_tail_text p Hp
                (RegExp.push (RegExp.Char c) RegExp.Atom RegExp.initial) eq_refl)
      as (st' & E & M & _).
    rewrite E, (steps_escaped_quantifier st' (chars (escapeInput rest)) M Hq).
    reflexivity.
Qed.

(** X20: a search string whose first regex metacharacter is a star or a
    plus has no pattern: [getFuzzyRegex] throws a SyntaxError (nothing to
    repeat), and so does every [findByAttribute] call that carries the string
    under the key [any], whatever the certifiers and the collection. *)
Theorem getFuzzyRegex_star_or_plus (prefix rest : string) (m : ascii) :
  literal prefix = true ->
  m = "*"%char \/ m = "+"%char ->
  getFuzzyRegex (prefix ++ String m rest) = Rejected (SyntaxError NothingToRepeat)
  /\ forall attributes certifiers db,
       get "any" attributes = Some (prefix ++ String m rest)%string ->
       findByAttribute (Some attributes) certifiers db
       = (Rejected (SyntaxError NothingToRepeat), db).
Proof.
  intros Hlit Hq. split; [apply getFuzzyRegex_quantifier; assumption|].
  intros attributes certifiers db Hany.
  rewrite findByAttribute_certifier_clause_first by (destruct attributes; discriminate).
  rewrite Hany, (getFuzzyRegex_quantifier prefix rest Hlit Hq). reflexivity.
Qed.

Lemma getFuzzyRegex_star_or_plus_witness :
  getFuzzyRegex "C++" = Rejected (SyntaxError NothingToRepeat)
  /\ forall attributes certifiers db,
       get "any" attributes = Some "C++"%string ->
       findByAttribute (Some attributes) certifiers db
       = (Rejected (SyntaxError NothingToRepeat), db).
Proof.
  apply (@getFuzzyRegex_star_or_plus "C" "+" "+"); [reflexivity|right; reflexivity].
Defined.

Lemma steps_wildcard_backslash (st st' : RegExp.State) :
  RegExp.steps st ["."; "*"; "\"]%char = RegExp.Pattern st' ->
  exists k, RegExp.finish st' = RegExp.Invalid k.
Proof.
  destruct st as [[alts ts] enc l m]. destruct m; cbn; intros H;
    inversion H; subst; eexists; reflexivity.
Qed.

(** X21: a search string that ends with a backslash has no pattern:
    [getFuzzyRegex] throws a SyntaxError on it, whatever comes before the
    backslash. *)
Theorem getFuzzyRegex_trailing_backslash (input : string) :
  exists k, getFuzzyRegex (input ++ "\") = Rejected (SyntaxError k).
Proof.
  pose proof (getFuzzyRegex_inside_fragment (input ++ "\")) as Hin.
  destruct (getFuzzyRegex (input ++ "\")) as [re|[k|]] eqn:E;
    [exfalso | exists k; reflexivity | contradiction].
  unfold getFuzzyRegex, RegExp_new, RegExp.ParsePattern in E.
  fold (chars (join ".*" (split_chars (escapeInput (input ++ "\"))))) in E.
  rewrite join_split_chars, escapeInput_app, chars_append in E.
  change (chars (escapeInput "\")) with (["\"] ++ ["\"])%char%list in E.
  rewrite app_assoc in E.
  destruct (chars (escapeInput input) ++ ["\"%char]) as [|c front] eqn:F;
    [destruct (chars (escapeInput input)); discriminate|].
  cbn [app] in E. rewrite tail_text_app in E.
  change (tail_text ["\"%char]) with ["."; "*"; "\"]%char in E.
  rewrite app_comm_cons, steps_app in E.
  destruct (RegExp.steps RegExp.initial (c :: tail_text front)) as [st1| |];
    try discriminate.
  destruct (RegExp.steps st1 ["."; "*"; "\"]%char) as [st2| |] eqn:E2; try discriminate.
  destruct (steps_wildcard_backslash st1 E2) as [k Hk]. rewrite Hk in E. discriminate.
Qed.

(** ** getFuzzyRegex: the case of the letters *)

Lemma Canonicalize_line_terminator (x : ascii) :
  RegExp.IsLineTerminator (RegExp.Canonicalize x) = RegExp.IsLineTerminator x.
Proof. destruct x as [[] [] [] [] [] [] [] []]; reflexivity. Qed.

Lemma Canonicalize_special (x : ascii) :
  regexSpecial (RegExp.Canonicalize x) = regexSpecial x.
Proof. destruct x as [[] [] [] [] [] [] [] []]; reflexivity. Qed.

Lemma alike_canon (a b : ascii) :
  alike a b <-> RegExp.Canonicalize a = RegExp.Canonicalize b.
Proof. unfold alike, RegExp.same_letter. apply Ascii.eqb_eq. Qed.

Lemma alike_line_terminator (a b : ascii) :
  alike a b -> RegExp.IsLineTerminator a = RegExp.IsLineTerminator b.
Proof.
  intros H. apply alike_canon in H.
  rewrite <- (Canonicalize_line_terminator a), H. apply Canonicalize_line_terminator.
Qed.

Lemma alike_special (a b : ascii) : alike a b -> regexSpecial a = regexSpecial b.
Proof.
  intros H. apply alike_canon in H.
  rewrite <- (Canonicalize_special a), H. apply Canonicalize_special.
Qed.

Lemma alike_flip (a b : list ascii) : Forall2 alike a b -> Forall2 alike b a.
Proof.
  induction 1 as [|x y a b H _ IH]; constructor; [|exact IH].
  apply alike_canon. symmetry. apply alike_canon. exact H.
Qed.

Lemma literal_alike (s s' : string) :
  literal s = true -> Forall2 alike (chars s) (chars s') -> literal s' = true.
Proof.
  unfold literal. intros Hs H. induction H as [|x y a b Hxy _ IH]; [reflexivity|].
  cbn [forallb] in *. apply andb_true_iff in Hs. destruct Hs as [Hx Ha].
  rewrite <- (alike_special Hxy), Hx. apply IH. exact Ha.
Qed.

Lemma single_line_alike (gap gap' : list ascii) :
  single_line gap -> Forall2 alike gap gap' -> single_line gap'.
Proof.
  intros Hg H. induction H as [|x y a b Hxy _ IH]; [constructor|].
  inversion Hg as [|? ? Hx Ha]; subst. constructor; [|apply IH; exact Ha].
  rewrite <- (alike_line_terminator Hxy). exact Hx.
Qed.

Lemma alike_through (c c' x x' : ascii) :
  alike c c' -> alike x x' -> alike c x -> alike c' x'.
Proof.
  rewrite !alike_canon. intros H1 H2 H3. rewrite <- H1, H3. exact H2.
Qed.

Lemma follows_alike (cs t : list ascii) :
  follows cs t ->
  forall cs' t', Forall2 alike cs cs' -> Forall2 alike t t' -> follows cs' t'.
Proof.
  induction 1 as [t|c cs gap x t Hgap Hx _ IH]; intros cs' t' Hcs Ht.
  - inversion Hcs; subst. constructor.
  - inversion Hcs as [|? c' ? cs'' Hc Hcs']; subst.
    apply Forall2_app_inv_l in Ht. destruct Ht as (gap' & tail & Hg & Htail & ->).
    inversion Htail as [|? x' ? t'' Hxx Ht'']; subst.
    constructor.
    + apply (single_line_alike Hgap Hg).
    + apply (alike_through Hc Hxx Hx).
    + apply IH; assumption.
Qed.

Lemma fuzzy_occurs_alike (s t s' t' : list ascii) :
  Forall2 alike s s' -> Forall2 alike t t' -> fuzzy_occurs s t -> fuzzy_occurs s' t'.
Proof.
  intros Hs Ht H. destruct Hs as [|c c' cs cs' Hc Hcs]; [exact I|].
  destruct H as (before & x & after & -> & Hx & Hf).
  apply Forall2_app_inv_l in Ht. destruct Ht as (before' & tail & _ & Htail & ->).
  inversion Htail as [|? x' ? after' Hxx Hafter]; subst.
  exists before', x', after'. split; [reflexivity|].
  split; [apply (alike_through Hc Hxx Hx)|].
  apply (follows_alike Hf Hcs Hafter).
Qed.

(** X22: the fuzzy match ignores the case of the letters on both sides: for
    a search string without regex metacharacters, changing the case of
    letters in the search string and in the target changes neither whether a
    pattern is built nor whether it matches. *)
Theorem getFuzzyRegex_ignores_case (search search' target target' : string) :
  literal search = true ->
  Forall2 alike (chars search) (chars search') ->
  Forall2 alike (chars target) (chars target') ->
  exists re re',
    getFuzzyRegex search = Resolved re
    /\ getFuzzyRegex search' = Resolved re'
    /\ RegExp_test re target = RegExp_test re' target'.
Proof.
  intros Hlit Hs Ht. exists (fuzzy_regexp search), (fuzzy_regexp search').
  split; [apply getFuzzyRegex_literal_pattern; exact Hlit|].
  split; [apply getFuzzyRegex_literal_pattern; apply (literal_alike search search' Hlit Hs)|].
  destruct (RegExp_test (fuzzy_regexp search) target) eqn:E.
  - symmetry. apply fuzzy_regexp_test. apply fuzzy_regexp_test in E.
    apply (fuzzy_occurs_alike Hs Ht E).
  - destruct (RegExp_test (fuzzy_regexp search') target') eqn:E'; [|reflexivity].
    apply fuzzy_regexp_test in E'.
    apply (fuzzy_occurs_alike (alike_flip Hs) (alike_flip Ht)) in E'.
    apply fuzzy_regexp_test in E'. congruence.
Qed.

Lemma getFuzzyRegex_ignores_case_witness :
  exists re re',
    getFuzzyRegex "ace" = Resolved re
    /\ getFuzzyRegex "AcE" = Resolved re'
    /\ RegExp_test re "abcde" = RegExp_test re' "ABcDe".
Proof.
  apply (@getFuzzyRegex_ignores_case "ace" "AcE" "abcde" "ABcDe").
  - reflexivity.
  - repeat constructor.
  - repeat constructor.
Defined.

Lemma steps_escaped_parenthesis (st : RegExp.State) (rest : list ascii) :
  RegExp.mode st = RegExp.InPattern ->
  RegExp.enclosing st = [] ->
  RegExp.steps st (tail_text ("\"%char :: ")"%char :: rest))
  = RegExp.Invalid UnmatchedParenthesis.
Proof.
  intros Hm He. cbn [tail_text flat_map app RegExp.steps].
  rewrite (step_dot st Hm).
  cbn [RegExp.step RegExp.step_pattern RegExp.push RegExp.set_terms RegExp.set_mode
       RegExp.mode RegExp.last RegExp.current RegExp.terms RegExp.enclosing
       RegExp.quantify RegExp.close_group RegExp.IsIdentityEscape
       RegExp.IsSyntaxCharacter RegExp.is_one_of existsb list_ascii_of_string
       Ascii.eqb Bool.eqb orb].
  unfold RegExp.close_group.
  cbn [RegExp.enclosing RegExp.set_terms RegExp.push RegExp.set_mode].
  rewrite He. reflexivity.
Qed.

(** X23: a search string whose first regex metacharacter is a closing
    parenthesis has no pattern: [getFuzzyRegex] throws a SyntaxError
    (unmatched parenthesis), whatever follows. *)
Theorem getFuzzyRegex_closing_parenthesis (prefix rest : string) :
  literal prefix = true ->
  getFuzzyRegex (prefix ++ String ")" rest) = Rejected (SyntaxError UnmatchedParenthesis).
Proof.
  intros Hlit. unfold getFuzzyRegex, RegExp_new, RegExp.ParsePattern.
  fold (chars (join ".*" (split_chars (escapeInput (prefix ++ String ")" rest))))).
  rewrite join_split_chars, escapeInput_app, (escapeInput_literal prefix Hlit), chars_append.
  change (chars (escapeInput (String ")" rest)))
    with ("\"%char :: ")"%char :: chars (escapeInput rest)).
  unfold literal in Hlit. destruct (chars prefix) as [|c p].
  - reflexivity.
  - cbn [forallb] in Hlit. apply andb_true_iff in Hlit. destruct Hlit as [Hc Hp].
    apply negb_true_iff in Hc.
    cbn [app RegExp.steps].
    rewrite step_literal; [|exact Hc|reflexivity|discriminate].
    rewrite tail_text_app, steps_app.
    destruct (steps_tail_text p Hp
                (RegExp.push (RegExp.Char c) RegExp.Atom RegExp.initial) eq_refl)
      as (st' & E & M & En & _).
    rewrite E, (steps_escaped_parenthesis st' (chars (escapeInput rest)) M En).
    reflexivity.
Qed.

Lemma getFuzzyRegex_closing_parenthesis_witness :
  getFuzzyRegex "hello :)" = Rejected (SyntaxError UnmatchedParenthesis).
Proof.
  apply (@getFuzzyRegex_closing_parenthesis "hello :" ""). reflexivity.
Defined.

(** ** getFuzzyRegex: braces and closing brackets *)

Lemma chars_escapeInput (s : string) : chars (escapeInput s) = flat_map escaped (chars s).
Proof.
  unfold chars. induction s as [|c s IH]; [reflexivity|].
  cbn [escapeInput list_ascii_of_string flat_map]. unfold escaped at 1.
  destruct (regexSpecial c); cbn [list_ascii_of_string app]; rewrite IH; reflexivity.
Qed.

Lemma tail_text_escaped (c : ascii) :
  tail_text (escaped c) = ("." :: "*" :: token_text c)%char.
Proof. unfold escaped, token_text. destruct (regexSpecial c); reflexivity. Qed.

Lemma tail_text_flat_map_escaped (cs : list ascii) :
  tail_text (flat_map escaped cs)
  = flat_map (fun c => ("." :: "*" :: token_text c)%char) cs.
Proof.
  induction cs as [|c cs IH]; [reflexivity|].
  cbn [flat_map]. rewrite tail_text_app, tail_text_escaped, IH. reflexivity.
Qed.

Lemma pattern_text (s : string) :
  chars (join ".*" (split_chars (escapeInput s)))
  = match chars s with
    | [] => []
    | c :: rest =>
        token_text c ++ flat_map (fun c => ("." :: "*" :: token_text c)%char) rest
    end.
Proof.
  rewrite join_split_chars, chars_escapeInput.
  destruct (chars s) as [|c rest]; [reflexivity|].
  cbn [flat_map]. rewrite <- tail_text_flat_map_escaped.
  unfold escaped at 1, token_text. destruct (regexSpecial c); reflexivity.
Qed.

Lemma brace_like_cases (c : ascii) :
  brace_like c = true -> c = "{"%char \/ c = "}"%char \/ c = "]"%char.
Proof.
  unfold brace_like, RegExp.is_one_of. cbn [list_ascii_of_string existsb].
  rewrite !orb_true_iff, !Ascii.eqb_eq. intros [H|[H|[H|H]]]; auto. discriminate.
Qed.

Lemma steps_token_text (c : ascii) (st : RegExp.State) :
  negb (regexSpecial c) || brace_like c = true ->
  RegExp.mode st = RegExp.InPattern ->
  RegExp.last st <> RegExp.BraceAtom ->
  exists st',
    RegExp.steps st (token_text c) = RegExp.Pattern st'
    /\ RegExp.mode st' = RegExp.InPattern
    /\ RegExp.enclosing st' = RegExp.enclosing st
    /\ RegExp.alternatives (RegExp.current st') = RegExp.alternatives (RegExp.current st)
    /\ RegExp.terms (RegExp.current st')
       = rev (token_nodes c) ++ RegExp.terms (RegExp.current st).
Proof.
  intros Hc Hm Hl. unfold token_text, token_nodes.
  destruct (regexSpecial c) eqn:Es.
  - cbn [negb orb] in Hc.
    assert (Hback : RegExp.step st "\" = RegExp.Pattern (RegExp.set_mode RegExp.AfterBackslash st))
      by (unfold RegExp.step; rewrite Hm; reflexivity).
    cbn [RegExp.steps]. rewrite Hback.
    destruct (brace_like_cases c Hc) as [-> | [-> | ->]];
      (eexists; split; [reflexivity|]; repeat split).
  - cbn [RegExp.steps]. rewrite step_literal by assumption.
    eexists. split; [reflexivity|]. repeat split.
Qed.

Lemma steps_harmless_tail (cs : list ascii) :
  forallb (fun c => negb (regexSpecial c) || brace_like c) cs = true ->
  forall st,
    RegExp.mode st = RegExp.InPattern ->
    exists st',
      RegExp.steps st (flat_map (fun c => ("." :: "*" :: token_text c)%char) cs)
      = RegExp.Pattern st'
      /\ RegExp.mode st' = RegExp.InPattern
      /\ RegExp.enclosing st' = RegExp.enclosing st
      /\ RegExp.alternatives (RegExp.current st') = RegExp.alternatives (RegExp.current st)
      /\ RegExp.terms (RegExp.current st')
         = rev (harmless_tail cs) ++ RegExp.terms (RegExp.current st).
Proof.
  induction cs as [|c cs IH]; intros Hcs st Hm.
  - exists st. simpl. repeat split; assumption.
  - cbn [forallb] in Hcs. apply andb_true_iff in Hcs. destruct Hcs as [Hc Hcs].
    cbn [flat_map]. rewrite steps_app. cbn [RegExp.steps].
    rewrite (step_dot st Hm), step_star_after_atom.
    match goal with |- context [RegExp.steps ?s (token_text c)] =>
      destruct (@steps_token_text c s Hc eq_refl ltac:(discriminate))
        as (st1 & E1 & M1 & En1 & Al1 & Te1) end.
    rewrite E1.
    destruct (IH Hcs st1 M1) as (st' & E & M & En & Al & Te).
    exists st'. rewrite E. repeat split; try assumption.
    + rewrite En, En1. reflexivity.
    + rewrite Al, Al1. reflexivity.
    + rewrite Te, Te1. cbn [harmless_tail flat_map]. fold (harmless_tail cs).
      cbn [RegExp.set_terms RegExp.current RegExp.terms].
      rewrite rev_app_distr. cbn [rev]. rewrite <- !app_assoc. reflexivity.
Qed.

Lemma getFuzzyRegex_harmless_pattern (s : string) :
  harmless s = true ->
  getFuzzyRegex s
  = Resolved {| source := join ".*" (split_chars (escapeInput s));
                pattern := harmless_node (chars s) |}.
Proof.
  intros Hs. unfold getFuzzyRegex, RegExp_new, RegExp.ParsePattern.
  fold (chars (join ".*" (split_chars (escapeInput s)))). rewrite pattern_text.
  unfold harmless in Hs. destruct (chars s) as [|c rest]; [reflexivity|].
  cbn [forallb] in Hs. apply andb_true_iff in Hs. destruct Hs as [Hc Hrest].
  rewrite steps_app.
  destruct (@steps_token_text c RegExp.initial Hc eq_refl ltac:(discriminate))
    as (st1 & E1 & M1 & En1 & Al1 & Te1).
  rewrite E1.
  destruct (steps_harmless_tail rest Hrest st1 M1) as (st' & E & M & En & Al & Te).
  rewrite E. unfold RegExp.finish. rewrite M, En, En1. cbn [RegExp.initial RegExp.enclosing].
  unfold RegExp.Disjunction. rewrite Al, Al1, Te, Te1.
  cbn [RegExp.initial RegExp.current RegExp.alternatives RegExp.terms fold_left].
  unfold RegExp.Alternative, harmless_node.
  rewrite app_nil_r, rev_app_distr, !rev_involutive. reflexivity.
Qed.

(** A greedy star over one set of characters runs over any stretch of
    characters of the set, and over nothing else. *)
Lemma RepeatMatcher_run (member : ascii -> bool) (fuel : nat) :
  forall (i : nat) (input : list ascii) (c : RegExp.MatcherContinuation),
    length input < fuel ->
    RegExp.RepeatMatcher (RegExp.CharacterSetMatcher member) true fuel
      {| RegExp.endIndex := i; RegExp.remaining := input |} c = true
    <-> exists run rest,
          input = run ++ rest /\ forallb member run = true
          /\ c {| RegExp.endIndex := i + length run; RegExp.remaining := rest |} = true.
Proof.
  induction fuel as [|fuel IH]; intros i input c Hlen; [inversion Hlen|].
  cbn [RegExp.RepeatMatcher]. rewrite orb_true_iff.
  assert (Hnext : forall ch rest,
             RegExp.CharacterSetMatcher member
               {| RegExp.endIndex := i; RegExp.remaining := ch :: rest |}
               (fun y => if RegExp.endIndex y =? i then false
                         else RegExp.RepeatMatcher (RegExp.CharacterSetMatcher member)
                                true fuel y c)
             = member ch
               && RegExp.RepeatMatcher (RegExp.CharacterSetMatcher member) true fuel
                    {| RegExp.endIndex := S i; RegExp.remaining := rest |} c).
  { intros ch rest. unfold RegExp.CharacterSetMatcher at 1.
    cbn [RegExp.endIndex RegExp.remaining].
    replace (S i =? i) with false by (symmetry; apply Nat.eqb_neq; lia).
    reflexivity. }
  cbn [RegExp.endIndex]. split.
  - intros [H|H].
    + destruct input as [|ch rest]; [discriminate|].
      rewrite Hnext in H. apply andb_true_iff in H. destruct H as [Hch H].
      apply IH in H; [|simpl in Hlen; lia].
      destruct H as (run & rest' & E & Hrun & Hc).
      exists (ch :: run), rest'. subst rest. split; [reflexivity|]. split.
      * cbn [forallb]. rewrite Hch. exact Hrun.
      * cbn [length]. rewrite Nat.add_succ_r. exact Hc.
    + exists [], input. split; [reflexivity|]. split; [reflexivity|].
      cbn [length]. rewrite Nat.add_0_r. exact H.
  - intros (run & rest & E & Hrun & Hc). destruct run as [|g run].
    + right. cbn [length app] in *. subst rest. rewrite Nat.add_0_r in Hc. exact Hc.
    + left. subst input. cbn [app]. cbn [forallb] in Hrun.
      apply andb_true_iff in Hrun. destruct Hrun as [Hg Hrun].
      rewrite Hnext, Hg. cbn [andb].
      apply IH; [cbn [app length] in Hlen; lia|].
      exists run, rest. split; [reflexivity|]. split; [exact Hrun|].
      cbn [length] in Hc. rewrite Nat.add_succ_r in Hc. exact Hc.
Qed.

Lemma dots_single_line (run : list ascii) :
  forallb (RegExp.same_letter ".") run = true -> single_line run.
Proof.
  intros H. apply Forall_forall. intros g Hg.
  rewrite forallb_forall in H. specialize (H g Hg).
  rewrite <- (@alike_line_terminator "." g H). reflexivity.
Qed.

Lemma follows_after_gap (c : ascii) (cs gap run : list ascii) (x : ascii)
    (t : list ascii) :
  single_line gap -> single_line run ->
  RegExp.same_letter c x = true -> follows cs t ->
  follows (c :: cs) (gap ++ run ++ x :: t).
Proof.
  intros Hgap Hrun Hx Ht. rewrite app_assoc. constructor; try assumption.
  apply Forall_app. split; assumption.
Qed.

Lemma harmless_tail_match (cs : list ascii) :
  forall (i : nat) (input : list ascii),
    RegExp.CompileNode (fold_right RegExp.Seq RegExp.Empty (harmless_tail cs))
      {| RegExp.endIndex := i; RegExp.remaining := input |} (fun _ => true) = true
    <-> follows cs input.
Proof.
  induction cs as [|c cs IH]; intros i input.
  - simpl. split; [intros _; constructor | reflexivity].
  - cbn [harmless_tail flat_map]. fold (harmless_tail cs). unfold token_nodes.
    destruct (regexSpecial c);
      cbn [app fold_right RegExp.CompileNode RegExp.remaining];
      rewrite RepeatMatcher_run by lia.
    + split.
      * intros (gap & rest & -> & Hgap & H). cbn [RegExp.remaining] in H.
        apply RepeatMatcher_run in H; [|lia].
        destruct H as (run & rest' & -> & Hrun & H).
        apply CharacterSetMatcher_true in H. destruct H as (x & t & -> & Hx & H).
        apply IH in H. apply follows_after_gap; try assumption.
        -- apply single_line_forallb. exact Hgap.
        -- apply dots_single_line. exact Hrun.
      * intros H. inversion H as [|? ? gap x t Hgap Hx Ht]; subst.
        exists gap, (x :: t). split; [reflexivity|].
        split; [apply single_line_forallb; exact Hgap|].
        cbn [RegExp.remaining]. apply RepeatMatcher_run; [lia|].
        exists [], (x :: t). split; [reflexivity|]. split; [reflexivity|].
        apply CharacterSetMatcher_true. exists x, t.
        split; [reflexivity|]. split; [exact Hx|]. apply IH. exact Ht.
    + split.
      * intros (gap & rest & -> & Hgap & H).
        apply CharacterSetMatcher_true in H. destruct H as (x & t & -> & Hx & H).
        apply IH in H. constructor; try assumption.
        apply single_line_forallb. exact Hgap.
      * intros H. inversion H as [|? ? gap x t Hgap Hx Ht]; subst.
        exists gap, (x :: t). split; [reflexivity|].
        split; [apply single_line_forallb; exact Hgap|].
        apply CharacterSetMatcher_true. exists x, t.
        split; [reflexivity|]. split; [exact Hx|]. apply IH. exact Ht.
Qed.

Lemma harmless_node_test (cs target : list ascii) :
  RegExp.search (RegExp.CompileNode (harmless_node cs)) 0 target = true
  <-> fuzzy_occurs cs target.
Proof.
  rewrite search_true. destruct cs as [|c cs].
  - simpl. split; [trivial|]. intros _. exists [], target. auto.
  - cbn [harmless_node fuzzy_occurs]. unfold token_nodes.
    destruct (regexSpecial c); cbn [app fold_right RegExp.CompileNode RegExp.remaining].
    + split.
      * intros (before & after & -> & H).
        apply RepeatMatcher_run in H; [|lia].
        destruct H as (run & rest & -> & Hrun & H).
        apply CharacterSetMatcher_true in H. destruct H as (x & t & -> & Hx & H).
        apply harmless_tail_match in H.
        exists (before ++ run), x, t. rewrite <- app_assoc. auto.
      * intros (before & x & after & -> & Hx & H).
        exists before, (x :: after). split; [reflexivity|].
        apply RepeatMatcher_run; [lia|].
        exists [], (x :: after). split; [reflexivity|]. split; [reflexivity|].
        apply CharacterSetMatcher_true. exists x, after.
        split; [reflexivity|]. split; [exact Hx|]. apply harmless_tail_match. exact H.
    + split.
      * intros (before & after & -> & H).
        apply CharacterSetMatcher_true in H. destruct H as (x & t & -> & Hx & H).
        apply harmless_tail_match in H. exists before, x, t. auto.
      * intros (before & x & after & -> & Hx & H).
        exists before, (x :: after). split; [reflexivity|].
        apply CharacterSetMatcher_true. exists x, after.
        split; [reflexivity|]. split; [exact Hx|]. apply harmless_tail_match. exact H.
Qed.

(** X24: braces and closing brackets in a search string are matched as the
    characters they are: for every search string whose only regex
    metacharacters are opening braces, closing braces and closing brackets,
    [getFuzzyRegex] builds a pattern, and the pattern matches exactly the
    targets in which the characters of the search string occur in order, up
    to case, with no line terminator between two of them. *)
Theorem getFuzzyRegex_braces (s : string) :
  harmless s = true ->
  exists re,
    getFuzzyRegex s = Resolved re
    /\ forall t, RegExp_test re t = true <-> fuzzy_occurs (chars s) (chars t).
Proof.
  intros Hs. eexists. split; [apply getFuzzyRegex_harmless_pattern; exact Hs|].
  intros t. unfold RegExp_test. cbn [pattern]. apply harmless_node_test.
Qed.

Lemma getFuzzyRegex_braces_witness :
  exists re,
    getFuzzyRegex "{id}]" = Resolved re
    /\ forall t, RegExp_test re t = true <-> fuzzy_occurs (chars "{id}]") (chars t).
Proof. apply (getFuzzyRegex_braces "{id}]"). reflexivity. Defined.

(** ** findByAttribute: one search string that has no pattern *)

Lemma attributeQueries_rejected (attributes : IdentityAttributes) (key value : string) :
  In (key, value) attributes ->
  (exists e, getFuzzyRegex value = Rejected e) ->
  exists e, attributeQueries attributes = Rejected e.
Proof.
  intros Hin [e He]. induction attributes as [|[k v] attributes IH]; [destruct Hin|].
  cbn [attributeQueries]. destruct Hin as [E|Hin].
  - inversion E; subst. rewrite He. exists e. reflexivity.
  - destruct (getFuzzyRegex v) as [re|e']; [|exists e'; reflexivity].
    destruct (IH Hin) as [e' E']. rewrite E'. exists e'. reflexivity.
Qed.

(** X25: in a search by fields every search string is compiled: when one of
    them has no pattern the whole call is rejected, whatever the other
    attributes, the certifiers and the collection are, and the collection is
    left as it was. *)
Theorem findByAttribute_one_rejected (attributes : IdentityAttributes)
    (key value : string) :
  get "any" attributes = None ->
  In (key, value) attributes ->
  (exists e, getFuzzyRegex value = Rejected e) ->
  exists e, forall certifiers db,
    findByAttribute (Some attributes) certifiers db = (Rejected e, db).
Proof.
  intros Hany Hin Hrej.
  destruct (attributeQueries_rejected attributes key value Hin Hrej) as [e E].
  exists e. intros certifiers db.
  rewrite findByAttribute_certifier_clause_first by (destruct attributes; [destruct Hin|discriminate]).
  rewrite Hany, E. reflexivity.
Qed.

Lemma findByAttribute_one_rejected_witness :
  exists e, forall certifiers db,
    findByAttribute (Some [("name", "alice")%string; ("team", "C++")%string]) certifiers db
    = (Rejected e, db).
Proof.
  apply (@findByAttribute_one_rejected
           [("name", "alice")%string; ("team", "C++")%string] "team" "C++").
  - reflexivity.
  - right. left. reflexivity.
  - eexists. reflexivity.
Defined.
